(** * django_migration_fixture: fixtures loaded and unloaded by data migrations

    A shallow embedding of [django_migration_fixture/__init__.py].

    The module is glue around Django: the ORM, the serializers, the database
    connection and the [post_migrate] signal are not part of it.  They are
    taken here as an interface ([Framework]) whose operations the embedded
    functions call in the order the Python code calls them; every call
    leaves an entry in a chronological log, so that statements about what
    is (not) done, how often and in which order can be made about the code
    itself, for every behaviour of the framework. *)

From Stdlib Require Import ZArith Ascii String List Lia.
From stdpp Require Import base option list gmap strings.

Import ListNotations.
Local Open Scope string_scope.
Local Open Scope list_scope.

(** ** Python values and framework objects *)

(** The values found in the [__dict__] of a deserialized instance. *)
Inductive Value :=
| VNone
| VInt (n : Z)
| VStr (s : string)
| VBool (b : bool).

Global Instance Value_eq_dec : EqDecision Value.
Proof. solve_decision. Defined.

(** A model class, identified by its label. *)
Definition Model := string.

(** A piece of SQL, as [connection.ops.sequence_reset_sql] produces it. *)
Definition SQL := string.

(** A Python [dict] with string keys. *)
Abbreviation Dict := (gmap string Value).

(** A model instance: [_meta.model], [__class__.__name__] and [__dict__]. *)
Record Instance := {
  inst_model : Model;
  inst_class_name : string;
  inst_dict : Dict;
}.

(** [django.core.serializers.base.DeserializedObject]. *)
Record DeserializedObject := {
  object : Instance;
}.

(** The application module handed to [fixture]: [__name__] and [__path__]. *)
Record App := {
  app_name : string;
  app_path : list string;
}.

(** A [django.apps.AppConfig], the sender of [post_migrate]. *)
Record AppConfig := {
  label : string;
  name : string;
}.

(** The historical-model registry handed to the reverse callable;
    [get_model] is [None] where Django raises [LookupError]. *)
Record Apps := {
  get_model : string -> string -> option Model;
}.

Definition SchemaEditor := unit.

(** ** Exceptions *)

Inductive Exc :=
| FixtureObjectDoesNotExist (model : Model) (kwargs : Dict)
| AssertionError
| IndexError
| IOError (path : string)
| LookupError (app_label model_name : string)
| DoesNotExist (model : Model)
| MultipleObjectsReturned (model : Model)
| DeserializationError (msg : string)
| DatabaseError (msg : string).

Inductive Result (A : Type) :=
| Ok (a : A)
| Raise (e : Exc).
Arguments Ok {A} a.
Arguments Raise {A} e.

(** ** The framework *)

(** What the module calls and does not define.  A failing call raises and
    leaves the database as it was. *)
Class Framework := {
  DB : Type;
  Row : Type;
  (** [serializers.deserialize(format, f, ignorenonexistent=True)]: the
      objects the iterator yields, then the exception that ends it, if any *)
  deserialize : string -> string -> list DeserializedObject * option Exc;
  (** [obj.save()] *)
  obj_save : DeserializedObject -> DB -> Result DB;
  (** [model.objects.get] with the keyword arguments [kwargs] *)
  objects_get : Model -> Dict -> DB -> Result Row;
  (** [row.delete()] *)
  row_delete : Row -> DB -> Result DB;
  (** [connection.ops.sequence_reset_sql(no_style(), models)] *)
  sequence_reset_sql : gset Model -> list SQL;
  (** [cursor.execute(sql)] *)
  cursor_execute : SQL -> DB -> Result DB;
}.

(** ** [os.path] (posixpath) *)

Module os_path.

Definition startswith_slash (s : string) : bool :=
  match s with
  | String c _ => Ascii.eqb c "/"
  | EmptyString => false
  end.

Fixpoint endswith_slash (s : string) : bool :=
  match s with
  | EmptyString => false
  | String c EmptyString => Ascii.eqb c "/"
  | String _ s' => endswith_slash s'
  end.

(** [os.path.join(a, b)] *)
Definition join (a b : string) : string :=
  if startswith_slash b then b
  else if String.eqb a EmptyString || endswith_slash a then a ++ b
  else a ++ "/" ++ b.

(** [p.rfind(c)], [-1] when [c] does not occur *)
Fixpoint rfind_from (c : ascii) (p : string) (i : Z) (found : Z) : Z :=
  match p with
  | EmptyString => found
  | String d p' => rfind_from c p' (i + 1) (if Ascii.eqb d c then i else found)
  end.

Definition rfind (c : ascii) (p : string) : Z := rfind_from c p 0 (-1).

Definition slice_to (p : string) (i : Z) : string :=
  String.substring 0 (Z.to_nat i) p.

Definition slice_from (p : string) (i : Z) : string :=
  String.substring (Z.to_nat i) (String.length p - Z.to_nat i) p.

(** the [while] loop of [genericpath._splitext]: is there a character
    other than the dot in [p[filenameIndex:dotIndex]]? *)
Fixpoint has_non_dot (p : string) (filenameIndex : nat) (n : nat) : bool :=
  match n with
  | O => false
  | S n' =>
      match String.get filenameIndex p with
      | Some c => if Ascii.eqb c "." then has_non_dot p (S filenameIndex) n' else true
      | None => true
      end
  end.

(** [os.path.splitext(p)] *)
Definition splitext (p : string) : string * string :=
  let sepIndex := rfind "/" p in
  let dotIndex := rfind "." p in
  if (sepIndex <? dotIndex)%Z
     && has_non_dot p (Z.to_nat (sepIndex + 1)) (Z.to_nat (dotIndex - (sepIndex + 1)))
  then (slice_to p dotIndex, slice_from p dotIndex)
  else (p, EmptyString).

End os_path.


(** ** The world the module runs in *)

(** A connected receiver of [post_migrate].  The only receivers considered
    are the [signal_handler] closures of this module: a closure is its
    identity ([id(signal_handler)], fresh for every call of [load_fixture])
    and the variables [get_objects] captures. *)
Record Receiver := {
  rcv_id : nat;
  rcv_fixture_path : string;
  rcv_fixtures : list string;
}.

(** The calls made, in the order they are made. *)
Inductive Event :=
| EvOpen (path : string)
| EvSave (obj : DeserializedObject)
| EvResetDbSequences (models : gset Model)
| EvCursor
| EvExecute (sql : SQL)
| EvCursorClose
| EvGet (model : Model) (kwargs : Dict)
| EvDelete (model : Model) (kwargs : Dict)
| EvLoad (handler : nat).

Section Program.
Context `{Framework}.

Record World := {
  w_db : DB;
  w_fs : gmap string string;
  w_receivers : list Receiver;
  w_next_id : nat;
  w_log : list Event;
}.

(** ** A state and exception monad

    An exception keeps the effects made before it: nothing here wraps the
    work in a transaction. *)
Definition M (A : Type) : Type := World -> Result A * World.

Definition ret {A} (a : A) : M A := fun w => (Ok a, w).

Definition raise {A} (e : Exc) : M A := fun w => (Raise e, w).

Definition bind {A B} (m : M A) (k : A -> M B) : M B :=
  fun w =>
    match m w with
    | (Ok a, w') => k a w'
    | (Raise e, w') => (Raise e, w')
    end.

Declare Scope py_scope.
Delimit Scope py_scope with py.
Notation "x <- m ;; k" := (bind m (fun x => k))
  (at level 100, m at next level, right associativity) : py_scope.
Notation "m ;; k" := (bind m (fun _ => k))
  (at level 100, right associativity) : py_scope.
Local Open Scope py_scope.

(** [try: m except: handler] *)
Definition try_except {A} (m : M A) (handler : Exc -> M A) : M A :=
  fun w =>
    match m w with
    | (Ok a, w') => (Ok a, w')
    | (Raise e, w') => handler e w'
    end.

(** [try: m finally: cleanup] *)
Definition try_finally {A} (m : M A) (cleanup : M unit) : M A :=
  fun w =>
    match m w with
    | (r, w') =>
        match cleanup w' with
        | (Ok _, w'') => (r, w'')
        | (Raise e, w'') => (Raise e, w'')
        end
    end.

(** [for x in l: acc = body(x, acc)] *)
Fixpoint for_each {A B} (body : B -> A -> M A) (l : list B) (acc : A) : M A :=
  match l with
  | [] => ret acc
  | x :: l' => acc' <- body x acc ;; for_each body l' acc'
  end.

Definition log (e : Event) : M unit :=
  fun w =>
    (Ok tt, {| w_db := w_db w; w_fs := w_fs w; w_receivers := w_receivers w;
               w_next_id := w_next_id w; w_log := w_log w ++ [e] |}).

(** a framework call on the database *)
Definition on_db (f : DB -> Result DB) : M unit :=
  fun w =>
    match f (w_db w) with
    | Ok db => (Ok tt, {| w_db := db; w_fs := w_fs w; w_receivers := w_receivers w;
                          w_next_id := w_next_id w; w_log := w_log w |})
    | Raise e => (Raise e, w)
    end.

(** [open(path, 'rb')] and the content read through the handle *)
Definition open_rb (path : string) : M string :=
  log (EvOpen path) ;;
  fun w =>
    match w_fs w !! path with
    | Some content => (Ok content, w)
    | None => (Raise (IOError path), w)
    end.

Definition save (obj : DeserializedObject) : M unit :=
  log (EvSave obj) ;; on_db (obj_save obj).

Definition execute (sql : SQL) : M unit :=
  log (EvExecute sql) ;; on_db (cursor_execute sql).

(** [with connection.cursor() as cursor: body] *)
Definition with_cursor {A} (body : M A) : M A :=
  log EvCursor ;; try_finally body (log EvCursorClose).

(** [model.objects.get] with [kwargs], then [.delete()] on the row found *)
Definition get_and_delete (model : Model) (kwargs : Dict) : M unit :=
  log (EvGet model kwargs) ;;
  row <- (fun w => match objects_get model kwargs (w_db w) with
                   | Ok row => (Ok row, w)
                   | Raise e => (Raise e, w)
                   end) ;;
  log (EvDelete model kwargs) ;;
  on_db (row_delete row).

(** ** [django.dispatch.Signal], for [signals.post_migrate] *)

(** [connect(receiver, weak=False)]: appended unless already connected *)
Definition post_migrate_connect (r : Receiver) : M unit :=
  fun w =>
    (Ok tt,
     {| w_db := w_db w; w_fs := w_fs w;
        w_receivers :=
          if existsb (fun r' => Nat.eqb (rcv_id r') (rcv_id r)) (w_receivers w)
          then w_receivers w else w_receivers w ++ [r];
        w_next_id := w_next_id w; w_log := w_log w |}).

(** [del self.receivers[index]] at the first index whose key matches *)
Fixpoint remove_receiver (id : nat) (rs : list Receiver) : list Receiver :=
  match rs with
  | [] => []
  | r :: rs' => if Nat.eqb (rcv_id r) id then rs' else r :: remove_receiver id rs'
  end.

(** [disconnect(receiver, weak=False)] *)
Definition post_migrate_disconnect (id : nat) : M unit :=
  fun w =>
    (Ok tt,
     {| w_db := w_db w; w_fs := w_fs w;
        w_receivers := remove_receiver id (w_receivers w);
        w_next_id := w_next_id w; w_log := w_log w |}).

(** the identity of a function object created by a [def] *)
Definition new_function_id : M nat :=
  fun w =>
    (Ok (w_next_id w),
     {| w_db := w_db w; w_fs := w_fs w; w_receivers := w_receivers w;
        w_next_id := S (w_next_id w); w_log := w_log w |}).

(** ** The module *)

(** [reset_db_sequences(models)]; the entry into the function is logged *)
Definition reset_db_sequences (models : gset Model) : M unit :=
  log (EvResetDbSequences models) ;;
  if decide (models = ∅) then ret tt
  else
    with_cursor
      (for_each (fun sql _ => execute sql) (sequence_reset_sql models) tt).

(** [get_format(fixture)]: [os.path.splitext(fixture)[1][1:]] *)
Definition get_format (fixture : string) : string :=
  match snd (os_path.splitext fixture) with
  | String _ ext => ext
  | EmptyString => EmptyString
  end.

Section Fixture.
(** the variables the nested functions of [fixture] capture *)
Variable app : App.
Variable fixture_path : string.
Variable fixtures : list string.
Variable raise_does_not_exist : bool.

(** [get_objects()], a generator: [get_objects body acc] is the loop
    [for obj in get_objects(): acc = body(obj, acc)].  A file is opened
    when the loop reaches it. *)
Definition get_objects {A} (body : DeserializedObject -> A -> M A) (acc : A) : M A :=
  for_each
    (fun fixture acc =>
       f <- open_rb (os_path.join fixture_path fixture) ;;
       let objects := deserialize (get_format fixture) f in
       acc' <- for_each body (fst objects) acc ;;
       match snd objects with
       | Some e => raise e
       | None => ret acc'
       end)
    fixtures acc.

Definition signal_handler (self : nat) (app_config sender : AppConfig) : M unit :=
  if String.eqb (label sender) "django_migration_fixture" then
    (if String.eqb (label app_config) "django_migration_fixture"
     then ret tt else raise AssertionError) ;;
    log (EvLoad self) ;;
    models <- get_objects
                (fun obj models =>
                   save obj ;;
                   ret (models ∪ {[ inst_model (object obj) ]}))
                (∅ : gset Model) ;;
    reset_db_sequences models ;;
    post_migrate_disconnect self
  else ret tt.

Definition load_fixture (app_config : AppConfig) (schema_editor : SchemaEditor) : M unit :=
  self <- new_function_id ;;
  post_migrate_connect
    {| rcv_id := self; rcv_fixture_path := fixture_path; rcv_fixtures := fixtures |}.

(** [dict.get(key)] *)
Definition dict_get (d : Dict) (key : string) : Value :=
  match d !! key with
  | Some v => v
  | None => VNone
  end.

(** the [kwargs] built from [obj.object.__dict__] *)
Definition unload_kwargs (d : Dict) : Dict :=
  let kwargs : Dict := ∅ in
  if bool_decide (is_Some (d !! "id")) then <["id" := dict_get d "id"]> kwargs
  else if bool_decide (is_Some (d !! "slug")) then <["slug" := dict_get d "slug"]> kwargs
  else d ∪ kwargs.

Definition unload_object (apps : Apps) (obj : DeserializedObject) : M unit :=
  model <- match get_model apps (app_name app) (inst_class_name (object obj)) with
           | Some model => ret model
           | None => raise (LookupError (app_name app) (inst_class_name (object obj)))
           end ;;
  let kwargs := unload_kwargs (inst_dict (object obj)) in
  try_except
    (get_and_delete model kwargs)
    (fun e =>
       match e with
       | DoesNotExist model' =>
           if String.eqb model' model then
             if negb raise_does_not_exist
             then raise (FixtureObjectDoesNotExist model kwargs)
             else ret tt
           else raise e
       | _ => raise e
       end).

Definition unload_fixture (apps : Apps) (schema_editor : SchemaEditor) : M unit :=
  get_objects (fun obj _ => unload_object apps obj) tt.

End Fixture.

(** what [fixture] returns: [dict(code=..., reverse_code=...)] *)
Record Operations := {
  code : AppConfig -> SchemaEditor -> M unit;
  reverse_code : Apps -> SchemaEditor -> M unit;
}.

(** the [fixtures] argument: one name or a sequence of names *)
Inductive Fixtures :=
| Name (fixture : string)
| Names (fixtures : list string).

(** [fixture(app, fixtures, fixtures_dir, raise_does_not_exist)] *)
Definition fixture (app : App) (fixtures : Fixtures) (fixtures_dir : string)
    (raise_does_not_exist : bool) : Result Operations :=
  match app_path app with
  | [] => Raise IndexError
  | path0 :: _ =>
      let fixture_path := os_path.join path0 fixtures_dir in
      let fixtures := match fixtures with
                      | Name s => [s]
                      | Names l => l
                      end in
      Ok {| code := load_fixture fixture_path fixtures;
            reverse_code := unload_fixture app fixture_path fixtures raise_does_not_exist |}
  end.

(** ** Django calling back *)

(** a call of the receiver [r] *)
Definition call_receiver (r : Receiver) (app_config sender : AppConfig) : M unit :=
  signal_handler (rcv_fixture_path r) (rcv_fixtures r) (rcv_id r) app_config sender.

(** [post_migrate.send(sender=sender, app_config=app_config)]: the
    receivers connected when the signal is sent are called in order *)
Definition post_migrate_send (sender app_config : AppConfig) : M unit :=
  fun w =>
    for_each (fun r _ => call_receiver r app_config sender) (w_receivers w) tt w.

(** [emit_post_migrate_signal]: the signal is sent once for every
    application, which is both its sender and its [app_config] *)
Definition emit_post_migrate_signal (app_configs : list AppConfig) : M unit :=
  for_each (fun app_config _ => post_migrate_send app_config app_config) app_configs tt.

End Program.

(** ** What is said about runs *)

Section Properties.
Context `{Framework}.

(** the invariant [connect] keeps: one entry per function object, and
    identities not handed out yet are not connected *)
Definition registry_ok (w : World) : Prop :=
  NoDup (map rcv_id (w_receivers w)) /\
  Forall (fun r => rcv_id r < w_next_id w) (w_receivers w).

(** [w'] is [w] after calls whose log entries all satisfy [P]; only the
    database and the log may differ *)
Definition steps (p : Event -> bool) (w w' : World) : Prop :=
  w_fs w' = w_fs w /\
  w_receivers w' = w_receivers w /\
  w_next_id w' = w_next_id w /\
  exists l, w_log w' = w_log w ++ l /\ forallb p l = true.

Definition emits {A} (p : Event -> bool) (m : M A) : Prop :=
  forall w, steps p w (m w).2.

Definition ids (w : World) : list nat := map rcv_id (w_receivers w).

(** [w] with the entries [l] added to its log *)
Definition logged (l : list Event) (w : World) : World :=
  {| w_db := w_db w; w_fs := w_fs w; w_receivers := w_receivers w;
     w_next_id := w_next_id w; w_log := w_log w ++ l |}.

(** the log entries of one iteration over the fixture files *)
Definition open_events (fixture_path : string) (fixtures : list string) : list Event :=
  map (fun fixture => EvOpen (os_path.join fixture_path fixture)) fixtures.

(** the objects saved, in order *)
Fixpoint saves (l : list Event) : list DeserializedObject :=
  match l with
  | [] => []
  | EvSave obj :: l' => obj :: saves l'
  | _ :: l' => saves l'
  end.

(** the calls of [reset_db_sequences], in order *)
Fixpoint resets (l : list Event) : list (gset Model) :=
  match l with
  | [] => []
  | EvResetDbSequences models :: l' => models :: resets l'
  | _ :: l' => resets l'
  end.

(** the files opened, in order *)
Fixpoint opens (l : list Event) : list string :=
  match l with
  | [] => []
  | EvOpen path :: l' => path :: opens l'
  | _ :: l' => opens l'
  end.

(** how often the load of handler [id] was started *)
Fixpoint loads (id : nat) (l : list Event) : nat :=
  match l with
  | [] => 0
  | EvLoad id' :: l' => (if Nat.eqb id' id then 1 else 0) + loads id l'
  | _ :: l' => loads id l'
  end.

(** what touches the sequences: the call, the cursor, the SQL *)
Definition is_reset (e : Event) : bool :=
  match e with
  | EvResetDbSequences _ | EvCursor | EvExecute _ | EvCursorClose => true
  | _ => false
  end.

(** what [unload_fixture] is allowed to do *)
Definition is_unload (e : Event) : bool :=
  match e with
  | EvOpen _ | EvGet _ _ | EvDelete _ _ => true
  | _ => false
  end.

(** the work on the cursor *)
Definition is_cursor (e : Event) : bool :=
  match e with
  | EvCursor | EvExecute _ | EvCursorClose => true
  | _ => false
  end.

(** what the loop of [signal_handler] does *)
Definition is_open_or_save (e : Event) : bool :=
  match e with
  | EvOpen _ | EvSave _ => true
  | _ => false
  end.

Definition is_not_load (e : Event) : bool :=
  match e with
  | EvLoad _ => false
  | _ => true
  end.

(** the model classes of a list of objects *)
Definition models_of (objs : list DeserializedObject) : gset Model :=
  list_to_set (map (fun obj => inst_model (object obj)) objs).

(** a loop body that only opens files and saves objects, and adds to its
    accumulator the model classes of the objects it saves *)
Definition collects (f : gset Model -> M (gset Model)) : Prop :=
  forall acc w,
  exists l,
    w_log (f acc w).2 = w_log w ++ l /\
    forallb is_open_or_save l = true /\
    w_receivers (f acc w).2 = w_receivers w /\
    forall acc', (f acc w).1 = Ok acc' -> acc' = acc ∪ models_of (saves l).

(** [list(get_objects())] *)
Definition list_get_objects (fixture_path : string) (fixtures : list string)
    : M (list DeserializedObject) :=
  get_objects fixture_path fixtures (fun obj acc => ret (acc ++ [obj])) [].

(** [n] iterations of [get_objects()], one after the other, each collected
    into a list *)
Fixpoint iterate_get_objects (fixture_path : string) (fixtures : list string) (n : nat)
    : M (list (list DeserializedObject)) :=
  match n with
  | O => ret []
  | S n' =>
      bind (list_get_objects fixture_path fixtures) (fun objs =>
      bind (iterate_get_objects fixture_path fixtures n') (fun rest =>
      ret (objs :: rest)))
  end.

(** the objects of one fixture file, in the order of the file *)
Definition file_objects (w : World) (fixture_path fixture : string)
    : list DeserializedObject :=
  match w_fs w !! os_path.join fixture_path fixture with
  | Some content => fst (deserialize (get_format fixture) content)
  | None => []
  end.

(** the objects of all files, in the order of the file list first *)
Definition stream_of (w : World) (fixture_path : string) (fixtures : list string)
    : list DeserializedObject :=
  flat_map (file_objects w fixture_path) fixtures.

(** the file is there and deserializes to its end *)
Definition readable (w : World) (fixture_path fixture : string) : Prop :=
  exists content,
    w_fs w !! os_path.join fixture_path fixture = Some content /\
    snd (deserialize (get_format fixture) content) = None.

(** a process run in which [post_migrate] is sent for each (sender,
    app_config) of the list; an exception ends the run *)
Definition fire (firings : list (AppConfig * AppConfig)) : M unit :=
  for_each (fun firing _ => post_migrate_send (fst firing) (snd firing)) firings tt.

(** the lookup key as the specification words it: the [id] alone if the
    object has one, else the [slug] alone if it has one, else all fields *)
Definition spec_lookup_key (d : Dict) : Dict :=
  match d !! "id" with
  | Some v => {[ "id" := v ]}
  | None =>
      match d !! "slug" with
      | Some v => {[ "slug" := v ]}
      | None => d
      end
  end.

(** the rows looked up, in order: the model and the keyword arguments *)
Fixpoint lookups (l : list Event) : list (Model * Dict) :=
  match l with
  | [] => []
  | EvGet model kwargs :: l' => (model, kwargs) :: lookups l'
  | _ :: l' => lookups l'
  end.

(** the rows deleted, in order *)
Fixpoint deletions (l : list Event) : list (Model * Dict) :=
  match l with
  | [] => []
  | EvDelete model kwargs :: l' => (model, kwargs) :: deletions l'
  | _ :: l' => deletions l'
  end.

(** what a call of [signal_handler] is allowed to do *)
Definition is_load_event (e : Event) : bool :=
  match e with
  | EvGet _ _ | EvDelete _ _ => false
  | _ => true
  end.

(** the projection of a log that keeps, entry by entry, what [f] selects *)
Definition project {X} (f : Event -> list X) (l : list Event) : list X :=
  flat_map f l.

Definition save_of (e : Event) : list DeserializedObject :=
  match e with
  | EvSave obj => [obj]
  | _ => []
  end.

Definition lookup_of (e : Event) : list (option Model * Dict) :=
  match e with
  | EvGet model kwargs => [(Some model, kwargs)]
  | _ => []
  end.

(** the lookup the unload of [obj] asks for: the historical model of its
    class, if the registry has one, and the keyword arguments *)
Definition lookup_for (app : App) (apps : Apps) (obj : DeserializedObject)
    : option Model * Dict :=
  (get_model apps (app_name app) (inst_class_name (object obj)),
   unload_kwargs (inst_dict (object obj))).

End Properties.

(** [c in s] *)
Fixpoint has_char (c : ascii) (s : string) : bool :=
  match s with
  | EmptyString => false
  | String d s' => Ascii.eqb d c || has_char c s'
  end.

(** ** A small instance of the framework *)

Module Demo.

Definition Rows := list (Model * Dict).

Definition egg1 : DeserializedObject :=
  {| object := {| inst_model := "myapp.Egg"; inst_class_name := "Egg";
                  inst_dict := {[ "id" := VInt 1; "colour" := VStr "brown" ]} |} |}.

Definition egg2 : DeserializedObject :=
  {| object := {| inst_model := "myapp.Egg"; inst_class_name := "Egg";
                  inst_dict := {[ "id" := VInt 2; "colour" := VStr "white" ]} |} |}.

Definition sausage : DeserializedObject :=
  {| object := {| inst_model := "myapp.Sausage"; inst_class_name := "Sausage";
                  inst_dict := {[ "slug" := VStr "cumberland"; "length" := VInt 12 ]} |} |}.

Definition walk : DeserializedObject :=
  {| object := {| inst_model := "myapp.Walk"; inst_class_name := "Walk";
                  inst_dict := {[ "silly" := VBool true; "steps" := VInt 7 ]} |} |}.

Definition documents : list (string * list DeserializedObject) :=
  [ ("eggs", [egg1; egg2]); ("sausage", [sausage]); ("walks", [walk]) ].

Fixpoint find_document (content : string)
    (docs : list (string * list DeserializedObject)) : option (list DeserializedObject) :=
  match docs with
  | [] => None
  | (c, objs) :: docs' => if String.eqb c content then Some objs else find_document content docs'
  end.

Definition demo_deserialize (format content : string)
    : list DeserializedObject * option Exc :=
  if String.eqb format "yaml" || String.eqb format "json" then
    match find_document content documents with
    | Some objs => (objs, None)
    | None => ([], Some (DeserializationError content))
    end
  else ([], Some (DeserializationError format)).

Definition row_of (obj : DeserializedObject) : Model * Dict :=
  (inst_model (object obj), inst_dict (object obj)).

Definition same_key (a b : Model * Dict) : bool :=
  String.eqb (fst a) (fst b)
  && bool_decide (snd a !! "id" = snd b !! "id")
  && bool_decide (snd a !! "slug" = snd b !! "slug").

Definition demo_save (obj : DeserializedObject) (db : Rows) : Result Rows :=
  Ok (filter (fun r => negb (same_key r (row_of obj))) db ++ [row_of obj]).

Definition matches (model : Model) (kwargs : Dict) (row : Model * Dict) : bool :=
  String.eqb (fst row) model
  && forallb (fun kv => bool_decide (snd row !! fst kv = Some (snd kv))) (map_to_list kwargs).

Definition demo_get (model : Model) (kwargs : Dict) (db : Rows) : Result (Model * Dict) :=
  match List.filter (matches model kwargs) db with
  | [] => Raise (DoesNotExist model)
  | [row] => Ok row
  | _ => Raise (MultipleObjectsReturned model)
  end.

Definition demo_delete (row : Model * Dict) (db : Rows) : Result Rows :=
  Ok (List.filter (fun r => negb (bool_decide (r = row))) db).

Definition demo_sequence_reset_sql (models : gset Model) : list SQL :=
  map (fun m => String.append "SELECT setval " m) (elements models).

#[local] Instance demo_framework : Framework := {|
  DB := Rows;
  Row := Model * Dict;
  deserialize := demo_deserialize;
  obj_save := demo_save;
  objects_get := demo_get;
  row_delete := demo_delete;
  sequence_reset_sql := demo_sequence_reset_sql;
  cursor_execute := fun _ db => Ok db;
|}.

Definition myapp : App := {| app_name := "myapp"; app_path := ["/srv/myapp"] |}.

Definition myapp_config : AppConfig := {| label := "myapp"; name := "myapp" |}.

Definition dmf_config : AppConfig :=
  {| label := "django_migration_fixture"; name := "django_migration_fixture" |}.

Definition history : Apps :=
  {| get_model := fun app_label model_name =>
       if String.eqb app_label "myapp" then Some (String.append "myapp." model_name) else None |}.

Definition files : gmap string string :=
  {[ "/srv/myapp/fixtures/eggs.yaml" := "eggs";
     "/srv/myapp/fixtures/sausage.json" := "sausage";
     "/srv/myapp/fixtures/walks.yaml" := "walks" ]}.

(** a fresh process on an empty database *)
Definition world0 : World :=
  {| w_db := ([] : Rows); w_fs := files; w_receivers := []; w_next_id := 0; w_log := [] |}.

End Demo.

(** * Theorems *)

Example join_dir : os_path.join "/srv/myapp" "fixtures" = "/srv/myapp/fixtures".
Proof. reflexivity. Qed.

Example splitext_yaml : os_path.splitext "eggs.yaml" = ("eggs", ".yaml").
Proof. reflexivity. Qed.

Example splitext_hidden : os_path.splitext "dir.d/.profile" = ("dir.d/.profile", EmptyString).
Proof. reflexivity. Qed.

Example get_format_json : get_format "sausage.json" = "json".
Proof. reflexivity. Qed.

Example demo_list :
  (list_get_objects "/srv/myapp/fixtures" ["eggs.yaml"; "sausage.json"] Demo.world0).1
  = Ok [Demo.egg1; Demo.egg2; Demo.sausage].
Proof. vm_compute. reflexivity. Qed.

Section Frame.
Context `{Framework}.

(** *** Chaining runs *)

Lemma steps_refl p w : steps p w w.
Proof.
  repeat split. exists []. split; [symmetry; apply app_nil_r | reflexivity].
Qed.

Lemma steps_trans p w1 w2 w3 : steps p w1 w2 -> steps p w2 w3 -> steps p w1 w3.
Proof.
  intros (Hf & Hr & Hn & l & Hl & Hp) (Hf' & Hr' & Hn' & l' & Hl' & Hp').
  repeat split; try congruence.
  exists (l ++ l'). split.
  - rewrite Hl', Hl. symmetry. apply app_assoc.
  - rewrite forallb_app, Hp, Hp'. reflexivity.
Qed.

Lemma steps_weaken (p q : Event -> bool) w w' :
  (forall e, p e = true -> q e = true) -> steps p w w' -> steps q w w'.
Proof.
  intros Hpq (Hf & Hr & Hn & l & Hl & Hp).
  repeat split; try assumption.
  exists l. split; [assumption |].
  apply forallb_forall. intros e He.
  apply Hpq. revert e He. apply forallb_forall. assumption.
Qed.

Lemma emits_weaken {A} (p q : Event -> bool) (m : M A) :
  (forall e, p e = true -> q e = true) -> emits p m -> emits q m.
Proof. intros Hpq Hm w. eapply steps_weaken; eauto. Qed.

Lemma emits_ret {A} p (a : A) : emits p (ret a).
Proof. intros w. apply steps_refl. Qed.

Lemma emits_raise {A} p e : emits p (raise (A := A) e).
Proof. intros w. apply steps_refl. Qed.

Lemma emits_bind {A B} p (m : M A) (k : A -> M B) :
  emits p m -> (forall a, emits p (k a)) -> emits p (bind m k).
Proof.
  intros Hm Hk w. unfold bind. specialize (Hm w).
  destruct (m w) as [[a | e] w1]; simpl in *.
  - eapply steps_trans; [exact Hm | apply Hk].
  - exact Hm.
Qed.

Lemma emits_log p e : p e = true -> emits p (log e).
Proof.
  intros He w. repeat split. exists [e]. simpl. rewrite He. auto.
Qed.

Lemma emits_on_db p f : emits p (on_db f).
Proof.
  intros w. unfold on_db. destruct (f (w_db w)); simpl.
  - repeat split. exists []. split; [symmetry; apply app_nil_r | reflexivity].
  - apply steps_refl.
Qed.

Lemma emits_try_except {A} p (m : M A) handler :
  emits p m -> (forall e, emits p (handler e)) -> emits p (try_except m handler).
Proof.
  intros Hm Hh w. unfold try_except. specialize (Hm w).
  destruct (m w) as [[a | e] w1]; simpl in *.
  - exact Hm.
  - eapply steps_trans; [exact Hm | apply Hh].
Qed.

Lemma emits_try_finally {A} p (m : M A) cleanup :
  emits p m -> emits p cleanup -> emits p (try_finally m cleanup).
Proof.
  intros Hm Hc w. unfold try_finally. specialize (Hm w).
  destruct (m w) as [r w1]. specialize (Hc w1).
  destruct (cleanup w1) as [[[] | e] w2]; simpl in *;
    eapply steps_trans; eauto.
Qed.

Lemma emits_for_each {A B} p (body : B -> A -> M A) l :
  (forall x acc, emits p (body x acc)) -> forall acc, emits p (for_each body l acc).
Proof.
  intros Hbody. induction l as [| x l IH]; intros acc; simpl.
  - apply emits_ret.
  - apply emits_bind; [apply Hbody | exact IH].
Qed.

(** *** The calls of the module, one by one *)

Lemma emits_open_rb p path : p (EvOpen path) = true -> emits p (open_rb path).
Proof.
  intros Hp. unfold open_rb. apply emits_bind; [apply emits_log; exact Hp |].
  intros _ w. destruct (w_fs w !! path); apply steps_refl.
Qed.

Lemma emits_save p obj : p (EvSave obj) = true -> emits p (save obj).
Proof.
  intros Hp. unfold save.
  apply emits_bind; [apply emits_log; exact Hp | intros _; apply emits_on_db].
Qed.

Lemma emits_execute p sql : p (EvExecute sql) = true -> emits p (execute sql).
Proof.
  intros Hp. unfold execute.
  apply emits_bind; [apply emits_log; exact Hp | intros _; apply emits_on_db].
Qed.

Lemma emits_get_and_delete p model kwargs :
  p (EvGet model kwargs) = true -> p (EvDelete model kwargs) = true ->
  emits p (get_and_delete model kwargs).
Proof.
  intros Hg Hd. unfold get_and_delete.
  apply emits_bind; [apply emits_log; exact Hg | intros _].
  apply emits_bind.
  - intros w. destruct (objects_get model kwargs (w_db w)); apply steps_refl.
  - intros row. apply emits_bind; [apply emits_log; exact Hd | intros _; apply emits_on_db].
Qed.

Lemma emits_get_objects {A} p fixture_path fixtures (body : DeserializedObject -> A -> M A) :
  (forall path, p (EvOpen path) = true) ->
  (forall obj acc, emits p (body obj acc)) ->
  forall acc, emits p (get_objects fixture_path fixtures body acc).
Proof.
  intros Hopen Hbody acc. unfold get_objects.
  apply emits_for_each. intros fixture acc'.
  apply emits_bind; [apply emits_open_rb, Hopen | intros f].
  apply emits_bind; [apply emits_for_each, Hbody | intros acc''].
  destruct (snd (deserialize (get_format fixture) f)); [apply emits_raise | apply emits_ret].
Qed.

Lemma emits_cursor_work models :
  emits is_cursor
    (with_cursor (for_each (fun sql _ => execute sql) (sequence_reset_sql models) tt)).
Proof.
  unfold with_cursor.
  apply emits_bind; [apply emits_log; reflexivity | intros _].
  apply emits_try_finally; [| apply emits_log; reflexivity].
  apply emits_for_each. intros sql _. apply emits_execute. reflexivity.
Qed.

Lemma emits_unload_object app flag apps obj :
  emits is_unload (unload_object app flag apps obj).
Proof.
  unfold unload_object. apply emits_bind.
  - destruct (get_model apps _ _); [apply emits_ret | apply emits_raise].
  - intros model. apply emits_try_except.
    + apply emits_get_and_delete; reflexivity.
    + intros e. destruct e; try apply emits_raise.
      destruct (String.eqb _ _); [| apply emits_raise].
      destruct (negb flag); [apply emits_raise | apply emits_ret].
Qed.

Lemma emits_unload_fixture app fixture_path fixtures flag apps schema_editor :
  emits is_unload (unload_fixture app fixture_path fixtures flag apps schema_editor).
Proof.
  unfold unload_fixture. apply emits_get_objects; [reflexivity |].
  intros obj _. apply emits_unload_object.
Qed.

Lemma is_unload_not_reset l :
  forallb is_unload l = true -> forallb (fun e => negb (is_reset e)) l = true.
Proof.
  intros Hl. apply forallb_forall. intros e He.
  assert (is_unload e = true) as Hu by (revert e He; apply forallb_forall; exact Hl).
  destruct e; simpl in *; congruence.
Qed.

Lemma resets_none l : forallb (fun e => negb (is_reset e)) l = true -> resets l = [].
Proof.
  induction l as [| e l IH]; simpl; [reflexivity |].
  intros Hl. apply andb_prop in Hl. destruct Hl as [He Hl].
  destruct e; simpl in *; auto; discriminate.
Qed.

End Frame.

Section Unload.
Context `{Framework}.

(** C9. The reverse operation only opens fixture files, looks rows up and
    deletes them: whatever the fixture configuration, the registry and the
    world it starts in, its log entries are [EvOpen], [EvGet] and
    [EvDelete]; [reset_db_sequences] is never entered, no cursor is opened
    and no SQL is executed. *)
Theorem unload_fixture_never_resets
    (app : App) (fixture_path : string) (fixtures : list string)
    (raise_does_not_exist : bool) (apps : Apps) (schema_editor : SchemaEditor)
    (w : World) :
  exists l,
    w_log (unload_fixture app fixture_path fixtures raise_does_not_exist
             apps schema_editor w).2 = w_log w ++ l /\
    forallb is_unload l = true /\
    forallb (fun e => negb (is_reset e)) l = true /\
    resets l = [].
Proof.
  destruct (emits_unload_fixture app fixture_path fixtures raise_does_not_exist
              apps schema_editor w) as (_ & _ & _ & l & Hl & Hp).
  exists l. split; [exact Hl |]. split; [exact Hp |].
  pose proof (is_unload_not_reset l Hp) as Hr.
  split; [exact Hr | apply resets_none, Hr].
Qed.

End Unload.

Section Reset.
Context `{Framework}.

(** C10. [reset_db_sequences] called with the empty set of models returns
    at once: the call succeeds, the database, the files and the receivers
    are what they were, and the entry of the call itself is all the log
    gains, so no cursor is opened and no SQL executed. *)
Theorem reset_db_sequences_empty (w : World) :
  let r := reset_db_sequences ∅ w in
  r.1 = Ok tt /\
  w_db r.2 = w_db w /\
  w_fs r.2 = w_fs w /\
  w_receivers r.2 = w_receivers w /\
  w_next_id r.2 = w_next_id w /\
  w_log r.2 = w_log w ++ [EvResetDbSequences ∅].
Proof.
  unfold reset_db_sequences, bind, log. simpl.
  destruct (decide ((∅ : gset Model) = ∅)) as [_ | Hne]; [| congruence].
  simpl. repeat split.
Qed.

Lemma reset_db_sequences_log models w :
  exists l,
    w_log (reset_db_sequences models w).2 = w_log w ++ EvResetDbSequences models :: l /\
    forallb is_cursor l = true /\
    w_receivers (reset_db_sequences models w).2 = w_receivers w.
Proof.
  unfold reset_db_sequences, bind. simpl.
  destruct (decide (models = ∅)) as [_ | _].
  - exists []. simpl. auto.
  - match goal with |- context [with_cursor ?m ?w'] =>
      destruct (emits_cursor_work models w') as (_ & Hr & _ & l & Hl & Hp)
    end.
    exists l. rewrite Hl, Hr. simpl. rewrite <- app_assoc. auto.
Qed.

End Reset.

Section Adapter.
Context `{Framework}.

(** C8. A single fixture name is turned into the list of that one name
    before anything else uses it: [fixture] returns the same forward and
    reverse callables for the name as for the one-element list. *)
Theorem fixture_single_name (app : App) (fixture_name fixtures_dir : string)
    (raise_does_not_exist : bool) :
  fixture app (Name fixture_name) fixtures_dir raise_does_not_exist
  = fixture app (Names [fixture_name]) fixtures_dir raise_does_not_exist.
Proof. unfold fixture. destruct (app_path app); reflexivity. Qed.

Lemma fresh_not_connected (w : World) :
  registry_ok w ->
  existsb (fun r' => Nat.eqb (rcv_id r') (w_next_id w)) (w_receivers w) = false.
Proof.
  intros [_ Hlt]. induction Hlt as [| r rs Hr _ IH]; simpl; [reflexivity |].
  rewrite IH. rewrite orb_false_r. apply Nat.eqb_neq. lia.
Qed.

Lemma load_fixture_run fixture_path fixtures app_config schema_editor (w : World) :
  registry_ok w ->
  load_fixture fixture_path fixtures app_config schema_editor w
  = (Ok tt,
     {| w_db := w_db w; w_fs := w_fs w;
        w_receivers := w_receivers w
                       ++ [ {| rcv_id := w_next_id w;
                               rcv_fixture_path := fixture_path;
                               rcv_fixtures := fixtures |} ];
        w_next_id := S (w_next_id w); w_log := w_log w |}).
Proof.
  intros Hok.
  unfold load_fixture, bind, new_function_id, post_migrate_connect. simpl.
  rewrite (fresh_not_connected w Hok). reflexivity.
Qed.


End Adapter.


Section UnloadObject.
Context `{Framework}.

Lemma unload_kwargs_spec (d : Dict) : unload_kwargs d = spec_lookup_key d.
Proof.
  unfold unload_kwargs, spec_lookup_key, dict_get.
  destruct (d !! "id") as [v |] eqn:Hid.
  - rewrite bool_decide_eq_true_2 by eauto. apply insert_empty.
  - rewrite bool_decide_eq_false_2 by (intros [? ?]; discriminate).
    destruct (d !! "slug") as [v |] eqn:Hslug.
    + rewrite bool_decide_eq_true_2 by eauto. apply insert_empty.
    + rewrite bool_decide_eq_false_2 by (intros [? ?]; discriminate).
      apply (right_id_L ∅ (∪)).
Qed.


(** What the code does when the row is absent: it raises when the flag
    is [False] and goes on when the flag is [True]. *)
Lemma unload_object_missing_row
    (app : App) (raise_does_not_exist : bool) (apps : Apps)
    (obj : DeserializedObject) (model : Model) (w : World) :
  get_model apps (app_name app) (inst_class_name (object obj)) = Some model ->
  objects_get model (unload_kwargs (inst_dict (object obj))) (w_db w)
  = Raise (DoesNotExist model) ->
  (unload_object app raise_does_not_exist apps obj w).1
  = if raise_does_not_exist then Ok tt
    else Raise (FixtureObjectDoesNotExist model (unload_kwargs (inst_dict (object obj)))).
Proof.
  intros Hmodel Hget. unfold unload_object. rewrite Hmodel.
  unfold bind, ret, try_except, get_and_delete, bind, log. simpl.
  rewrite Hget. simpl. rewrite String.eqb_refl.
  destruct raise_does_not_exist; reflexivity.
Qed.

End UnloadObject.


Example lookup_key_id :
  unload_kwargs (inst_dict (object Demo.egg1)) = {[ "id" := VInt 1 ]}.
Proof. rewrite unload_kwargs_spec. reflexivity. Qed.

Example lookup_key_slug :
  unload_kwargs (inst_dict (object Demo.sausage)) = {[ "slug" := VStr "cumberland" ]}.
Proof. rewrite unload_kwargs_spec. reflexivity. Qed.

Example lookup_key_all_fields :
  unload_kwargs (inst_dict (object Demo.walk))
  = {[ "silly" := VBool true; "steps" := VInt 7 ]}.
Proof. rewrite unload_kwargs_spec. reflexivity. Qed.

(** C1. On an empty database the unload of [eggs.yaml] does not find the
    egg with [id] 1.  With [raise_does_not_exist=False] the code raises
    [FixtureObjectDoesNotExist]; with [raise_does_not_exist=True] it goes
    on to the end without an error and leaves the database as it was: the
    opposite of what the name of the flag and the specification say. *)
Theorem unload_missing_row_flag_inverted :
  match fixture Demo.myapp (Name "eggs.yaml") "fixtures" false,
        fixture Demo.myapp (Name "eggs.yaml") "fixtures" true with
  | Ok ops_false, Ok ops_true =>
      (reverse_code ops_false Demo.history tt Demo.world0).1
      = Raise (FixtureObjectDoesNotExist "myapp.Egg" {[ "id" := VInt 1 ]}) /\
      (reverse_code ops_true Demo.history tt Demo.world0).1 = Ok tt /\
      w_db (reverse_code ops_true Demo.history tt Demo.world0).2 = w_db Demo.world0
  | _, _ => False
  end.
Proof. vm_compute. repeat split. Qed.

Section Stream.
Context `{Framework}.

Lemma logged_logged l1 l2 w : logged l2 (logged l1 w) = logged (l1 ++ l2) w.
Proof. unfold logged. simpl. rewrite <- app_assoc. reflexivity. Qed.

Lemma logged_nil w : logged [] w = w.
Proof. destruct w. unfold logged. simpl. rewrite app_nil_r. reflexivity. Qed.

Lemma bind_ok {A B} (m : M A) (k : A -> M B) w a w' :
  m w = (Ok a, w') -> bind m k w = k a w'.
Proof. intros Hm. unfold bind. rewrite Hm. reflexivity. Qed.

Lemma bind_raise {A B} (m : M A) (k : A -> M B) w e w' :
  m w = (Raise e, w') -> bind m k w = (Raise e, w').
Proof. intros Hm. unfold bind. rewrite Hm. reflexivity. Qed.

Lemma log_run e w : log e w = (Ok tt, logged [e] w).
Proof. reflexivity. Qed.

Lemma open_rb_ok path content w :
  w_fs w !! path = Some content ->
  open_rb path w = (Ok content, logged [EvOpen path] w).
Proof.
  intros Hfile. unfold open_rb.
  rewrite (bind_ok _ _ _ _ _ (log_run _ w)). simpl. rewrite Hfile. reflexivity.
Qed.

Lemma open_rb_missing path w :
  w_fs w !! path = None ->
  open_rb path w = (Raise (IOError path), logged [EvOpen path] w).
Proof.
  intros Hfile. unfold open_rb.
  rewrite (bind_ok _ _ _ _ _ (log_run _ w)). simpl. rewrite Hfile. reflexivity.
Qed.

Lemma collect_file (objs acc : list DeserializedObject) (w : World) :
  for_each (fun obj acc => ret (acc ++ [obj])) objs acc w = (Ok (acc ++ objs), w).
Proof.
  revert acc. induction objs as [| obj objs IH]; intros acc; simpl.
  - rewrite app_nil_r. reflexivity.
  - unfold bind, ret at 1. rewrite IH. rewrite <- app_assoc. reflexivity.
Qed.

Lemma collect_files fixture_path fixtures (acc : list DeserializedObject) (w : World) :
  Forall (readable w fixture_path) fixtures ->
  get_objects fixture_path fixtures (fun obj acc => ret (acc ++ [obj])) acc w
  = (Ok (acc ++ stream_of w fixture_path fixtures),
     logged (open_events fixture_path fixtures) w).
Proof.
  unfold get_objects. intros Hall. revert acc w Hall.
  induction fixtures as [| fixture fixtures IH]; intros acc w Hall; simpl.
  - rewrite app_nil_r, logged_nil. reflexivity.
  - inversion Hall as [| ? ? (content & Hfile & Hend) Hrest]; subst.
    erewrite bind_ok; cycle 1.
    { erewrite bind_ok by (apply open_rb_ok; exact Hfile).
      erewrite bind_ok by apply collect_file.
      rewrite Hend. reflexivity. }
    rewrite (IH _ (logged [EvOpen (os_path.join fixture_path fixture)] w)) by exact Hrest.
    rewrite logged_logged. simpl.
    unfold stream_of. simpl. unfold file_objects at 2. rewrite Hfile.
    rewrite <- app_assoc. reflexivity.
Qed.

Lemma list_get_objects_run fixture_path fixtures (w : World) :
  Forall (readable w fixture_path) fixtures ->
  list_get_objects fixture_path fixtures w
  = (Ok (stream_of w fixture_path fixtures),
     logged (open_events fixture_path fixtures) w).
Proof. intros Hall. unfold list_get_objects. rewrite collect_files by exact Hall. reflexivity. Qed.

Lemma iterate_get_objects_run fixture_path fixtures n (w : World) :
  Forall (readable w fixture_path) fixtures ->
  iterate_get_objects fixture_path fixtures n w
  = (Ok (repeat (stream_of w fixture_path fixtures) n),
     logged (concat (repeat (open_events fixture_path fixtures) n)) w).
Proof.
  revert w. induction n as [| n IH]; intros w Hall; simpl.
  - rewrite logged_nil. reflexivity.
  - unfold bind at 1. rewrite list_get_objects_run by exact Hall.
    unfold bind at 1.
    rewrite (IH (logged (open_events fixture_path fixtures) w)) by exact Hall.
    rewrite logged_logged. reflexivity.
Qed.

(** C7. When every configured fixture file is there and deserializes to
    its end, each iteration of [get_objects()] yields the objects of the
    first file in the order of that file, then those of the second, and so
    on; iterating [n] times gives that same sequence [n] times and opens
    every file anew each time, in the order of the file list, and does
    nothing else. *)
Theorem get_objects_restartable
    (fixture_path : string) (fixtures : list string) (n : nat) (w : World) :
  Forall (readable w fixture_path) fixtures ->
  let r := iterate_get_objects fixture_path fixtures n w in
  r.1 = Ok (repeat (flat_map (file_objects w fixture_path) fixtures) n) /\
  w_log r.2 = w_log w ++ concat (repeat (open_events fixture_path fixtures) n) /\
  w_db r.2 = w_db w /\
  w_fs r.2 = w_fs w /\
  w_receivers r.2 = w_receivers w.
Proof.
  intros Hall r. subst r. rewrite iterate_get_objects_run by exact Hall.
  repeat split.
Qed.

End Stream.

Lemma get_objects_restartable_witness :
  Forall (readable Demo.world0 "/srv/myapp/fixtures") ["eggs.yaml"; "sausage.json"] /\
  let r := iterate_get_objects "/srv/myapp/fixtures" ["eggs.yaml"; "sausage.json"] 3
             Demo.world0 in
  r.1 = Ok (repeat (flat_map (file_objects Demo.world0 "/srv/myapp/fixtures")
                      ["eggs.yaml"; "sausage.json"]) 3) /\
  w_log r.2
  = w_log Demo.world0
    ++ concat (repeat (open_events "/srv/myapp/fixtures" ["eggs.yaml"; "sausage.json"]) 3) /\
  w_db r.2 = w_db Demo.world0 /\
  w_fs r.2 = w_fs Demo.world0 /\
  w_receivers r.2 = w_receivers Demo.world0.
Proof.
  assert (Forall (readable Demo.world0 "/srv/myapp/fixtures") ["eggs.yaml"; "sausage.json"])
    as Hall.
  { repeat constructor.
    - exists "eggs". split; reflexivity.
    - exists "sausage". split; reflexivity. }
  split; [exact Hall |].
  apply (get_objects_restartable "/srv/myapp/fixtures" ["eggs.yaml"; "sausage.json"] 3
           Demo.world0 Hall).
Defined.

Example demo_stream :
  flat_map (file_objects Demo.world0 "/srv/myapp/fixtures") ["eggs.yaml"; "sausage.json"]
  = [Demo.egg1; Demo.egg2; Demo.sausage].
Proof. vm_compute. reflexivity. Qed.

Section Load.
Context `{Framework}.

Lemma saves_app l1 l2 : saves (l1 ++ l2) = saves l1 ++ saves l2.
Proof.
  induction l1 as [| e l1 IH]; simpl; [reflexivity |].
  destruct e; simpl; rewrite ?IH; reflexivity.
Qed.

Lemma resets_app l1 l2 : resets (l1 ++ l2) = resets l1 ++ resets l2.
Proof.
  induction l1 as [| e l1 IH]; simpl; [reflexivity |].
  destruct e; simpl; rewrite ?IH; reflexivity.
Qed.

Lemma models_of_app objs1 objs2 :
  models_of (objs1 ++ objs2) = models_of objs1 ∪ models_of objs2.
Proof. unfold models_of. rewrite map_app. apply list_to_set_app_L. Qed.

Lemma open_or_save_no_reset l : forallb is_open_or_save l = true -> resets l = [].
Proof.
  induction l as [| e l IH]; simpl; [reflexivity |].
  intros Hl. apply andb_prop in Hl. destruct Hl as [He Hl].
  destruct e; simpl in *; auto; discriminate.
Qed.

Lemma cursor_no_save_no_reset l :
  forallb is_cursor l = true -> saves l = [] /\ resets l = [].
Proof.
  induction l as [| e l IH]; simpl; [split; reflexivity |].
  intros Hl. apply andb_prop in Hl. destruct Hl as [He Hl].
  destruct e; simpl in *; auto; discriminate.
Qed.

Lemma collects_for_each {B} (body : B -> gset Model -> M (gset Model)) (xs : list B) :
  (forall x, collects (body x)) -> collects (for_each body xs).
Proof.
  intros Hbody. induction xs as [| x xs IH]; intros acc w; simpl.
  - exists []. simpl. rewrite app_nil_r. repeat split.
    intros acc' [= <-]. unfold models_of. simpl. symmetry. apply (right_id_L ∅ (∪)).
  - destruct (Hbody x acc w) as (l1 & Hl1 & Hp1 & Hr1 & Hacc1).
    unfold bind. destruct (body x acc w) as [[acc1 | e] w1]; simpl in *.
    + destruct (IH acc1 w1) as (l2 & Hl2 & Hp2 & Hr2 & Hacc2).
      exists (l1 ++ l2). rewrite Hl2, Hl1, Hr2, Hr1, forallb_app, Hp1, Hp2.
      rewrite <- app_assoc. repeat split.
      intros acc' Hok. rewrite (Hacc2 acc' Hok), (Hacc1 acc1 eq_refl).
      rewrite saves_app, models_of_app. symmetry. apply (assoc_L (∪)).
    + exists l1. repeat split; try assumption; try discriminate.
Qed.

Lemma collects_save_and_add obj :
  collects (fun models =>
              bind (save obj) (fun _ => ret (models ∪ {[ inst_model (object obj) ]}))).
Proof.
  intros acc w. exists [EvSave obj].
  unfold bind, save, bind, log, on_db, ret. simpl.
  destruct (obj_save obj (w_db w)); simpl; repeat split; try discriminate.
  intros acc' [= <-]. unfold models_of. simpl.
  rewrite (right_id_L ∅ (∪)). reflexivity.
Qed.

Lemma collects_load_loop fixture_path fixtures :
  collects
    (get_objects fixture_path fixtures
       (fun obj models =>
          bind (save obj) (fun _ => ret (models ∪ {[ inst_model (object obj) ]})))).
Proof.
  unfold get_objects. apply collects_for_each. intros fixture acc w.
  destruct (w_fs w !! os_path.join fixture_path fixture) as [content |] eqn:Hfile.
  - pose proof (open_rb_ok _ _ _ Hfile) as Hopen.
    destruct (collects_for_each _ (fst (deserialize (get_format fixture) content))
                collects_save_and_add acc
                (logged [EvOpen (os_path.join fixture_path fixture)] w))
      as (l & Hl & Hp & Hr & Hacc).
    exists (EvOpen (os_path.join fixture_path fixture) :: l).
    erewrite bind_ok by exact Hopen.
    destruct (for_each _ _ acc (logged _ w)) as [[acc1 | e] w2] eqn:Hloop;
      simpl in Hl, Hr.
    + erewrite bind_ok by exact Hloop.
      destruct (snd (deserialize (get_format fixture) content)); simpl;
        rewrite Hl, Hr, Hp, <- app_assoc; repeat split; try discriminate.
      intros acc' [= <-]. apply Hacc. reflexivity.
    + erewrite bind_raise by exact Hloop. simpl.
      rewrite Hl, Hr, Hp, <- app_assoc. repeat split; try discriminate.
  - exists [EvOpen (os_path.join fixture_path fixture)].
    erewrite bind_raise by (apply open_rb_missing; exact Hfile).
    simpl. repeat split; try discriminate.
Qed.

(** C3. A load pass that comes to its end enters [reset_db_sequences]
    exactly once: the log it adds is [pre], the entry of the one call, and
    [post], where [pre] holds every save of the pass and no call of the
    reset, [post] holds no save and no further call, and the set handed to
    the call is exactly the set of the model classes of the objects saved
    in [pre]. *)
Theorem load_resets_sequences_once
    (fixture_path : string) (fixtures : list string) (self : nat)
    (app_config sender : AppConfig) (w w' : World) :
  label sender = "django_migration_fixture" ->
  signal_handler fixture_path fixtures self app_config sender w = (Ok tt, w') ->
  exists pre post,
    w_log w' = w_log w ++ pre ++ EvResetDbSequences (models_of (saves pre)) :: post /\
    resets pre = [] /\
    saves post = [] /\
    resets post = [] /\
    saves (pre ++ EvResetDbSequences (models_of (saves pre)) :: post) = saves pre /\
    resets (pre ++ EvResetDbSequences (models_of (saves pre)) :: post)
    = [models_of (saves pre)].
Proof.
  intros Hsender Hrun. unfold signal_handler in Hrun.
  rewrite Hsender, String.eqb_refl in Hrun.
  destruct (String.eqb (label app_config) "django_migration_fixture");
    [| discriminate Hrun].
  erewrite bind_ok in Hrun by reflexivity.
  erewrite bind_ok in Hrun by apply log_run.
  destruct (collects_load_loop fixture_path fixtures ∅ (logged [EvLoad self] w))
    as (l1 & Hl1 & Hp1 & _ & Hacc).
  destruct (get_objects fixture_path fixtures _ ∅ (logged [EvLoad self] w))
    as [[models | e] w1] eqn:Hloop;
    [erewrite bind_ok in Hrun by exact Hloop
    | erewrite bind_raise in Hrun by exact Hloop; discriminate Hrun].
  simpl in Hl1. specialize (Hacc models eq_refl).
  rewrite (left_id_L ∅ (∪)) in Hacc. subst models.
  destruct (reset_db_sequences_log (models_of (saves l1)) w1) as (l2 & Hl2 & Hp2 & _).
  destruct (reset_db_sequences (models_of (saves l1)) w1) as [[[] | e] w2] eqn:Hreset;
    [erewrite bind_ok in Hrun by exact Hreset
    | erewrite bind_raise in Hrun by exact Hreset; discriminate Hrun].
  simpl in Hl2. unfold post_migrate_disconnect in Hrun. injection Hrun as <-. simpl.
  destruct (cursor_no_save_no_reset l2 Hp2) as [Hs2 Hr2].
  pose proof (open_or_save_no_reset l1 Hp1) as Hr1.
  exists (EvLoad self :: l1), l2. simpl.
  rewrite saves_app. simpl. rewrite Hs2, app_nil_r.
  repeat split; try assumption.
  - rewrite Hl2, Hl1. rewrite <- !app_assoc. reflexivity.
  - rewrite resets_app. simpl. rewrite Hr1, Hr2. reflexivity.
Qed.

End Load.

Lemma load_resets_sequences_once_witness :
  let run := signal_handler "/srv/myapp/fixtures" ["eggs.yaml"; "sausage.json"] 0
               Demo.dmf_config Demo.dmf_config Demo.world0 in
  label Demo.dmf_config = "django_migration_fixture" /\
  run = (Ok tt, run.2) /\
  exists pre post,
    w_log run.2
    = w_log Demo.world0 ++ pre ++ EvResetDbSequences (models_of (saves pre)) :: post /\
    resets pre = [] /\
    saves post = [] /\
    resets post = [] /\
    saves (pre ++ EvResetDbSequences (models_of (saves pre)) :: post) = saves pre /\
    resets (pre ++ EvResetDbSequences (models_of (saves pre)) :: post)
    = [models_of (saves pre)].
Proof.
  intros run.
  assert (run = (Ok tt, run.2)) as Hrun by (vm_compute; reflexivity).
  split; [reflexivity |]. split; [exact Hrun |].
  exact (load_resets_sequences_once "/srv/myapp/fixtures" ["eggs.yaml"; "sausage.json"] 0
           Demo.dmf_config Demo.dmf_config Demo.world0 run.2 eq_refl Hrun).
Defined.

Example demo_load_log :
  w_log (signal_handler "/srv/myapp/fixtures" ["eggs.yaml"; "sausage.json"] 0
           Demo.dmf_config Demo.dmf_config Demo.world0).2
  = [ EvLoad 0;
      EvOpen "/srv/myapp/fixtures/eggs.yaml"; EvSave Demo.egg1; EvSave Demo.egg2;
      EvOpen "/srv/myapp/fixtures/sausage.json"; EvSave Demo.sausage;
      EvResetDbSequences {[ "myapp.Egg"; "myapp.Sausage" ]};
      EvCursor;
      EvExecute "SELECT setval myapp.Sausage"; EvExecute "SELECT setval myapp.Egg";
      EvCursorClose ].
Proof. vm_compute. reflexivity. Qed.

Section Handler.
Context `{Framework}.

Lemma loads_app id l1 l2 : loads id (l1 ++ l2) = loads id l1 + loads id l2.
Proof.
  induction l1 as [| e l1 IH]; simpl; [reflexivity |].
  destruct e; simpl; rewrite ?IH; try reflexivity. lia.
Qed.

Lemma open_or_save_no_load id l : forallb is_open_or_save l = true -> loads id l = 0.
Proof.
  induction l as [| e l IH]; simpl; [reflexivity |].
  intros Hl. apply andb_prop in Hl. destruct Hl as [He Hl].
  destruct e; simpl in *; auto; discriminate.
Qed.

Lemma cursor_no_load id l : forallb is_cursor l = true -> loads id l = 0.
Proof.
  induction l as [| e l IH]; simpl; [reflexivity |].
  intros Hl. apply andb_prop in Hl. destruct Hl as [He Hl].
  destruct e; simpl in *; auto; discriminate.
Qed.

(** What a call of the handler does to the log and to the receivers: it
    starts its load only past the two tests of the label, and disconnects
    itself if and only if the load returns. *)
Lemma signal_handler_run fixture_path fixtures (self : nat)
    (app_config sender : AppConfig) (w : World) :
  let run := signal_handler fixture_path fixtures self app_config sender w in
  if String.eqb (label sender) "django_migration_fixture" then
    if String.eqb (label app_config) "django_migration_fixture" then
      exists l,
        w_log run.2 = w_log w ++ EvLoad self :: l /\
        (forall id, loads id l = 0) /\
        ((run.1 = Ok tt /\
          w_receivers run.2 = remove_receiver self (w_receivers w)) \/
         ((exists e, run.1 = Raise e) /\ w_receivers run.2 = w_receivers w))
    else run = (Raise AssertionError, w)
  else run = (Ok tt, w).
Proof.
  unfold signal_handler.
  destruct (String.eqb (label sender) "django_migration_fixture"); [| reflexivity].
  destruct (String.eqb (label app_config) "django_migration_fixture"); [| reflexivity].
  cbv zeta.
  erewrite bind_ok by reflexivity.
  erewrite bind_ok by apply log_run.
  destruct (collects_load_loop fixture_path fixtures ∅ (logged [EvLoad self] w))
    as (l1 & Hl1 & Hp1 & Hr1 & _).
  destruct (get_objects fixture_path fixtures _ ∅ (logged [EvLoad self] w))
    as [[models | e] w1] eqn:Hloop; simpl in Hl1, Hr1.
  - erewrite bind_ok by exact Hloop.
    destruct (reset_db_sequences_log models w1) as (l2 & Hl2 & Hp2 & Hr2).
    destruct (reset_db_sequences models w1) as [[[] | e] w2] eqn:Hreset;
      simpl in Hl2, Hr2.
    + erewrite bind_ok by exact Hreset.
      exists (l1 ++ EvResetDbSequences models :: l2). simpl.
      rewrite Hl2, Hl1, Hr2, Hr1. rewrite <- !app_assoc. simpl.
      split; [reflexivity |]. split; [| left; split; reflexivity].
      intros id. rewrite loads_app. simpl.
      rewrite (open_or_save_no_load id l1 Hp1), (cursor_no_load id l2 Hp2).
      reflexivity.
    + erewrite bind_raise by exact Hreset.
      exists (l1 ++ EvResetDbSequences models :: l2). simpl.
      rewrite Hl2, Hl1, Hr2, Hr1. rewrite <- !app_assoc. simpl.
      split; [reflexivity |]. split; [| right; split; [eexists |]; reflexivity].
      intros id. rewrite loads_app. simpl.
      rewrite (open_or_save_no_load id l1 Hp1), (cursor_no_load id l2 Hp2).
      reflexivity.
  - erewrite bind_raise by exact Hloop.
    exists l1. simpl. rewrite Hl1, Hr1. rewrite <- !app_assoc. simpl.
    split; [reflexivity |]. split; [| right; split; [eexists |]; reflexivity].
    intros id. apply open_or_save_no_load, Hp1.
Qed.

Lemma call_receiver_run (r : Receiver) (app_config sender : AppConfig) (w : World) :
  let run := call_receiver r app_config sender w in
  (w_log run.2 = w_log w /\ w_receivers run.2 = w_receivers w) \/
  (exists l,
     w_log run.2 = w_log w ++ EvLoad (rcv_id r) :: l /\
     (forall id, loads id l = 0) /\
     ((run.1 = Ok tt /\
       w_receivers run.2 = remove_receiver (rcv_id r) (w_receivers w)) \/
      ((exists e, run.1 = Raise e) /\ w_receivers run.2 = w_receivers w))).
Proof.
  unfold call_receiver.
  pose proof (signal_handler_run (rcv_fixture_path r) (rcv_fixtures r) (rcv_id r)
                app_config sender w) as Hrun.
  cbv zeta in *.
  destruct (String.eqb (label sender) "django_migration_fixture");
    [| left; rewrite Hrun; split; reflexivity].
  destruct (String.eqb (label app_config) "django_migration_fixture");
    [| left; rewrite Hrun; split; reflexivity].
  right. exact Hrun.
Qed.

(** C2, as the code has it.  Whatever application is handed to [fixture],
    the handler that its forward callable connects looks at the label of
    the sender only: it starts its load when that label is
    ["django_migration_fixture"] (and the [app_config] of the event carries
    the same label; it raises [AssertionError] otherwise), and when the
    event is sent for an application with any other label, the owning
    application included, it returns at once and changes nothing. *)
Theorem handler_loads_for_package_label
    (app : App) (fixtures : Fixtures) (fixtures_dir : string)
    (raise_does_not_exist : bool) (ops : Operations)
    (app_config0 : AppConfig) (schema_editor : SchemaEditor) (w0 : World) :
  fixture app fixtures fixtures_dir raise_does_not_exist = Ok ops ->
  registry_ok w0 ->
  exists r,
    w_receivers (code ops app_config0 schema_editor w0).2 = w_receivers w0 ++ [r] /\
    forall (app_config sender : AppConfig) (w : World),
      let run := call_receiver r app_config sender w in
      if String.eqb (label sender) "django_migration_fixture" then
        if String.eqb (label app_config) "django_migration_fixture" then
          exists l, w_log run.2 = w_log w ++ EvLoad (rcv_id r) :: l
        else run = (Raise AssertionError, w)
      else run = (Ok tt, w).
Proof.
  intros Hfix Hok. unfold fixture in Hfix.
  destruct (app_path app) as [| path0 rest]; [discriminate |].
  injection Hfix as <-. cbn [code].
  rewrite (load_fixture_run _ _ _ _ w0 Hok). simpl.
  eexists. split; [reflexivity |].
  intros app_config sender w. unfold call_receiver. simpl.
  pose proof (signal_handler_run (os_path.join path0 fixtures_dir)
                match fixtures with
                | Name s => [s]
                | Names l => l
                end (w_next_id w0) app_config sender w) as Hrun.
  cbv zeta in *.
  destruct (String.eqb (label sender) "django_migration_fixture"); [| exact Hrun].
  destruct (String.eqb (label app_config) "django_migration_fixture"); [| exact Hrun].
  destruct Hrun as (l & Hlog & _). exists l. exact Hlog.
Qed.

End Handler.

Lemma handler_loads_for_package_label_witness :
  fixture (H := Demo.demo_framework) Demo.myapp (Name "eggs.yaml") "fixtures" false
  = Ok {| code := load_fixture "/srv/myapp/fixtures" ["eggs.yaml"];
          reverse_code := unload_fixture Demo.myapp "/srv/myapp/fixtures" ["eggs.yaml"] false |} /\
  registry_ok Demo.world0 /\
  exists r,
    w_receivers (load_fixture "/srv/myapp/fixtures" ["eggs.yaml"]
                   Demo.myapp_config tt Demo.world0).2
    = w_receivers Demo.world0 ++ [r] /\
    forall (app_config sender : AppConfig) (w : @World Demo.demo_framework),
      let run := call_receiver r app_config sender w in
      if String.eqb (label sender) "django_migration_fixture" then
        if String.eqb (label app_config) "django_migration_fixture" then
          exists l, w_log run.2 = w_log w ++ EvLoad (rcv_id r) :: l
        else run = (Raise AssertionError, w)
      else run = (Ok tt, w).
Proof.
  split; [reflexivity |]. split; [split; simpl; constructor |].
  apply (handler_loads_for_package_label Demo.myapp (Name "eggs.yaml") "fixtures" false
           {| code := load_fixture "/srv/myapp/fixtures" ["eggs.yaml"];
              reverse_code := unload_fixture Demo.myapp "/srv/myapp/fixtures" ["eggs.yaml"] false |}
           Demo.myapp_config tt Demo.world0).
  - reflexivity.
  - split; simpl; constructor.
Defined.

(** C2 as the specification words it fails.  The fixture of [myapp] is
    registered; [post_migrate] sent for [myapp], the owning application,
    loads nothing and leaves the world as it is, and [post_migrate] sent
    for the application labelled [django_migration_fixture], which is not
    the owning one, saves the two eggs. *)
Lemma handler_ignores_owning_application :
  match fixture Demo.myapp (Name "eggs.yaml") "fixtures" false with
  | Ok ops =>
      let w1 := (code ops Demo.myapp_config tt Demo.world0).2 in
      name Demo.myapp_config = app_name Demo.myapp /\
      label Demo.myapp_config = app_name Demo.myapp /\
      post_migrate_send Demo.myapp_config Demo.myapp_config w1 = (Ok tt, w1) /\
      name Demo.dmf_config <> app_name Demo.myapp /\
      label Demo.dmf_config <> app_name Demo.myapp /\
      saves (w_log (post_migrate_send Demo.dmf_config Demo.dmf_config w1).2)
      = [Demo.egg1; Demo.egg2] /\
      w_db (post_migrate_send Demo.dmf_config Demo.dmf_config w1).2
      = [Demo.row_of Demo.egg1; Demo.row_of Demo.egg2]
  | Raise _ => False
  end.
Proof.
  cbn [fixture Demo.myapp app_path]. cbv zeta. cbn [code].
  split; [reflexivity |]. split; [reflexivity |].
  split; [vm_compute; reflexivity |].
  split; [discriminate |]. split; [discriminate |].
  split; vm_compute; reflexivity.
Qed.

Section Once.
Context `{Framework}.

Lemma remove_receiver_subset id rs x :
  x ∈ map rcv_id (remove_receiver id rs) -> x ∈ map rcv_id rs.
Proof.
  induction rs as [| r rs IH]; simpl; [auto |].
  destruct (Nat.eqb (rcv_id r) id); simpl.
  - intros Hx. apply list_elem_of_further, Hx.
  - intros Hx. apply elem_of_cons in Hx. destruct Hx as [-> | Hx].
    + apply list_elem_of_here.
    + apply list_elem_of_further, IH, Hx.
Qed.

Lemma remove_receiver_NoDup id rs :
  NoDup (map rcv_id rs) -> NoDup (map rcv_id (remove_receiver id rs)).
Proof.
  induction rs as [| r rs IH]; simpl; [auto |].
  intros Hnd. apply NoDup_cons in Hnd. destruct Hnd as [Hr Hnd].
  destruct (Nat.eqb (rcv_id r) id); simpl; [exact Hnd |].
  apply NoDup_cons. split; [| apply IH, Hnd].
  intros Hin. apply Hr. eapply remove_receiver_subset, Hin.
Qed.

Lemma remove_receiver_gone id rs :
  NoDup (map rcv_id rs) -> id ∉ map rcv_id (remove_receiver id rs).
Proof.
  induction rs as [| r rs IH]; simpl.
  - intros _ Hin. inversion Hin.
  - intros Hnd. apply NoDup_cons in Hnd. destruct Hnd as [Hr Hnd].
    destruct (Nat.eqb (rcv_id r) id) eqn:Heq; simpl.
    + apply Nat.eqb_eq in Heq. subst id. exact Hr.
    + apply Nat.eqb_neq in Heq. intros Hin.
      apply elem_of_cons in Hin. destruct Hin as [-> | Hin]; [congruence |].
      exact (IH Hnd Hin).
Qed.

(** One sending of the signal: the receivers connected at that moment are
    called in turn, and the receivers that return from a load are gone
    from the registry afterwards. *)
Lemma send_loop (id : nat) (app_config sender : AppConfig) (rs : list Receiver) (w : World) :
  NoDup (map rcv_id rs) ->
  NoDup (ids w) ->
  let run := for_each (fun r _ => call_receiver r app_config sender) rs tt w in
  exists l,
    w_log run.2 = w_log w ++ l /\
    loads id l <= 1 /\
    (id ∉ map rcv_id rs -> loads id l = 0) /\
    (run.1 = Ok tt -> loads id l = 1 -> id ∉ ids run.2) /\
    NoDup (ids run.2) /\
    (forall x, x ∈ ids run.2 -> x ∈ ids w).
Proof.
  revert w. induction rs as [| r rs IH]; intros w Hsnap Hreg; simpl.
  - exists []. rewrite app_nil_r. simpl. repeat split; auto; lia.
  - apply NoDup_cons in Hsnap. destruct Hsnap as [Hr Hsnap].
    pose proof (call_receiver_run r app_config sender w) as Hcall. cbv zeta in Hcall.
    destruct (call_receiver r app_config sender w) as [[[] | e] w1] eqn:Hrun;
      simpl in Hcall.
    + erewrite bind_ok by exact Hrun.
      assert (NoDup (ids w1) /\ (forall x, x ∈ ids w1 -> x ∈ ids w)) as [Hreg1 Hsub1].
      { unfold ids.
        destruct Hcall as [[_ ->] | (l1 & _ & _ & [[_ ->] | [_ ->]])]; auto.
        split; [apply remove_receiver_NoDup, Hreg | apply remove_receiver_subset]. }
      destruct (IH w1 Hsnap Hreg1) as (l2 & Hl2 & Hle2 & Hnone2 & Hgone2 & Hnd2 & Hsub2).
      destruct Hcall as [[Hlog1 _] | (l1 & Hlog1 & Hno1 & Hrcv1)].
      * exists l2. rewrite Hl2, Hlog1.
        repeat split; auto.
        intros Hid. apply Hnone2. intros Hin. apply Hid, list_elem_of_further, Hin.
      * exists (EvLoad (rcv_id r) :: l1 ++ l2).
        rewrite Hl2, Hlog1, <- app_assoc. simpl. rewrite loads_app, Hno1. simpl.
        destruct Hrcv1 as [[_ Hrcv1] | [[e He] _]]; [| discriminate He].
        destruct (Nat.eqb (rcv_id r) id) eqn:Heq.
        -- apply Nat.eqb_eq in Heq. subst id.
           rewrite (Hnone2 Hr).
           repeat split; auto.
           ++ intros Hid. exfalso. apply Hid, list_elem_of_here.
           ++ intros _ _ Hin. apply Hsub2 in Hin. revert Hin.
              unfold ids. rewrite Hrcv1. apply remove_receiver_gone, Hreg.
        -- repeat split; auto.
           intros Hid. apply Hnone2. intros Hin. apply Hid, list_elem_of_further, Hin.
    + erewrite bind_raise by exact Hrun. simpl.
      destruct Hcall as [[Hlog1 Hrcv1] | (l1 & Hlog1 & Hno1 & Hrcv1)].
      * exists []. rewrite app_nil_r. simpl. unfold ids. rewrite Hrcv1.
        repeat split; auto; try lia; discriminate.
      * destruct Hrcv1 as [[Hok _] | [_ Hrcv1]]; [discriminate Hok |].
        exists (EvLoad (rcv_id r) :: l1). simpl. rewrite Hno1. unfold ids. rewrite Hrcv1.
        repeat split; auto; try discriminate.
        -- destruct (Nat.eqb (rcv_id r) id); simpl; lia.
        -- intros Hid. destruct (Nat.eqb (rcv_id r) id) eqn:Heq; [| reflexivity].
           apply Nat.eqb_eq in Heq. subst id.
           exfalso. apply Hid, list_elem_of_here.
Qed.

(** C4. In a process run in which [post_migrate] is sent any number of
    times, for any applications (an exception ends the run), the load of a
    handler is started at most once.  A handler that is not connected is
    never started, and a handler whose load was started in a run that came
    to its end without an exception is no longer connected after it: it
    disconnected itself, so that nothing sent later reaches it. *)
Theorem handler_loads_at_most_once
    (id : nat) (firings : list (AppConfig * AppConfig)) (w : World) :
  NoDup (ids w) ->
  let run := fire firings w in
  exists l,
    w_log run.2 = w_log w ++ l /\
    loads id l <= 1 /\
    (id ∉ ids w -> loads id l = 0) /\
    (run.1 = Ok tt -> loads id l = 1 -> id ∉ ids run.2) /\
    NoDup (ids run.2) /\
    (forall x, x ∈ ids run.2 -> x ∈ ids w).
Proof.
  unfold fire. revert w.
  induction firings as [| [sender app_config] firings IH]; intros w Hreg; simpl.
  - exists []. rewrite app_nil_r. simpl. repeat split; auto; lia.
  - pose proof (send_loop id app_config sender (w_receivers w) w Hreg Hreg) as Hsend.
    cbv zeta in Hsend.
    destruct Hsend as (l1 & Hl1 & Hle1 & Hnone1 & Hgone1 & Hnd1 & Hsub1).
    destruct (post_migrate_send sender app_config w) as [[[] | e] w1] eqn:Hrun;
      unfold post_migrate_send in Hrun; rewrite Hrun in *; simpl in *.
    + erewrite bind_ok by exact Hrun.
      destruct (IH w1 Hnd1) as (l2 & Hl2 & Hle2 & Hnone2 & Hgone2 & Hnd2 & Hsub2).
      exists (l1 ++ l2). rewrite Hl2, Hl1, <- app_assoc, loads_app.
      assert (loads id l1 = 1 -> loads id l2 = 0) as Hafter
        by (intros Hone; apply Hnone2, Hgone1; auto).
      repeat split; auto.
      * lia.
      * intros Hid. rewrite (Hnone1 Hid).
        rewrite Hnone2; [reflexivity |]. intros Hin. apply Hid, Hsub1, Hin.
      * intros Hok Hone Hin.
        destruct (Nat.eq_dec (loads id l2) 1) as [Hl2one | Hl2not].
        -- exact (Hgone2 Hok Hl2one Hin).
        -- assert (loads id l1 = 1) as Hl1one by lia.
           apply (Hgone1 eq_refl Hl1one), Hsub2, Hin.
    + erewrite bind_raise by exact Hrun. simpl.
      exists l1. repeat split; auto; discriminate.
Qed.

End Once.

Lemma handler_loads_at_most_once_witness :
  let w := (load_fixture "/srv/myapp/fixtures" ["eggs.yaml"]
              Demo.myapp_config tt Demo.world0).2 in
  let firings := [ (Demo.myapp_config, Demo.myapp_config);
                   (Demo.dmf_config, Demo.dmf_config);
                   (Demo.dmf_config, Demo.dmf_config) ] in
  NoDup (ids w) /\
  let run := fire firings w in
  exists l,
    w_log run.2 = w_log w ++ l /\
    loads 0 l <= 1 /\
    (0 ∉ ids w -> loads 0 l = 0) /\
    (run.1 = Ok tt -> loads 0 l = 1 -> 0 ∉ ids run.2) /\
    NoDup (ids run.2) /\
    (forall x, x ∈ ids run.2 -> x ∈ ids w).
Proof.
  intros w firings.
  assert (NoDup (ids w)) as Hreg.
  { vm_compute. apply NoDup_singleton. }
  split; [exact Hreg |].
  exact (handler_loads_at_most_once 0 firings w Hreg).
Defined.

(** The signal sent three times after the registration: the two eggs are
    saved once, by the first sending that carries the label of the
    package, and the handler is gone afterwards. *)
Example demo_fire_three_times :
  let w := (load_fixture "/srv/myapp/fixtures" ["eggs.yaml"]
              Demo.myapp_config tt Demo.world0).2 in
  let run := fire [ (Demo.myapp_config, Demo.myapp_config);
                    (Demo.dmf_config, Demo.dmf_config);
                    (Demo.dmf_config, Demo.dmf_config) ] w in
  run.1 = Ok tt /\
  loads 0 (w_log run.2) = 1 /\
  saves (w_log run.2) = [Demo.egg1; Demo.egg2] /\
  w_receivers run.2 = [].
Proof. vm_compute. repeat split. Qed.

(** * Further properties of the module *)

Section Cursor.
Context `{Framework}.

Lemma execute_log sql (w : World) :
  w_log (execute sql w).2 = w_log w ++ [EvExecute sql].
Proof.
  unfold execute, bind, log, on_db. simpl.
  destruct (cursor_execute sql (w_db w)); reflexivity.
Qed.

(** The statements are executed in order up to the first that fails. *)
Lemma execute_loop (sqls : list SQL) (w : World) :
  let run := for_each (fun sql _ => execute sql) sqls tt w in
  exists n,
    n <= length sqls /\
    w_log run.2 = w_log w ++ map EvExecute (take n sqls) /\
    (run.1 = Ok tt -> n = length sqls).
Proof.
  revert w. induction sqls as [| sql sqls IH]; intros w; simpl.
  - exists 0. simpl. rewrite app_nil_r. auto.
  - pose proof (execute_log sql w) as Hlog.
    destruct (execute sql w) as [[[] | e] w1] eqn:Hrun; simpl in Hlog.
    + erewrite bind_ok by exact Hrun.
      destruct (IH w1) as (n & Hn & Hl & Hok).
      exists (S n). simpl. rewrite Hl, Hlog, <- app_assoc. simpl.
      repeat split; [lia |]. intros Hres. rewrite (Hok Hres). reflexivity.
    + erewrite bind_raise by exact Hrun. simpl.
      exists 1. simpl. rewrite ?take_0. simpl.
      repeat split; [lia | exact Hlog | discriminate].
Qed.


Lemma reset_db_sequences_tail (models : gset Model) (w : World) :
  exists l,
    w_log (reset_db_sequences models w).2 = w_log w ++ EvResetDbSequences models :: l /\
    forallb is_cursor l = true /\
    (models = ∅ -> l = []) /\
    (models <> ∅ -> exists l', l = EvCursor :: l').
Proof.
  destruct (decide (models = ∅)) as [-> | Hne].
  - exists []. unfold reset_db_sequences, bind, log. simpl.
    destruct (decide ((∅ : gset Model) = ∅)); [| congruence].
    simpl. repeat split. intros Hne. congruence.
  - destruct (reset_db_sequences_log models w) as (l & Hl & Hp & _).
    exists l. repeat split; try assumption; [contradiction |].
    intros _.
    revert Hl. unfold reset_db_sequences.
    erewrite bind_ok by apply log_run.
    destruct (decide (models = ∅)) as [Hempty | _]; [contradiction |].
    unfold with_cursor. erewrite bind_ok by apply log_run.
    unfold try_finally.
    destruct (execute_loop (sequence_reset_sql models)
                (logged [EvCursor] (logged [EvResetDbSequences models] w)))
      as (n & _ & Hl' & _).
    destruct (for_each _ (sequence_reset_sql models) tt _) as [r w1].
    simpl in *. rewrite Hl', <- !app_assoc. simpl. intros Heq.
    apply app_inv_head in Heq. injection Heq as <-. eauto.
Qed.

End Cursor.


Section Signal.
Context `{Framework}.

Lemma call_receiver_other_label (r : Receiver) (app_config sender : AppConfig) (w : World) :
  String.eqb (label sender) "django_migration_fixture" = false ->
  call_receiver r app_config sender w = (Ok tt, w).
Proof.
  intros Hlabel. unfold call_receiver, signal_handler. rewrite Hlabel. reflexivity.
Qed.

Lemma post_migrate_send_other_label (sender app_config : AppConfig) (w : World) :
  String.eqb (label sender) "django_migration_fixture" = false ->
  post_migrate_send sender app_config w = (Ok tt, w).
Proof.
  intros Hlabel. unfold post_migrate_send.
  generalize (w_receivers w) as rs. intros rs.
  induction rs as [| r rs IH]; simpl; [reflexivity |].
  erewrite bind_ok by (apply call_receiver_other_label; exact Hlabel).
  exact IH.
Qed.

(** X2. When none of the applications the signal is emitted for carries
    the label ["django_migration_fixture"], the emission of [post_migrate]
    loads nothing, whatever handlers are connected: it returns and the
    world, the registry included, is what it was. *)
Theorem emit_without_package_application (app_configs : list AppConfig) (w : World) :
  Forall (fun app_config => label app_config <> "django_migration_fixture") app_configs ->
  emit_post_migrate_signal app_configs w = (Ok tt, w).
Proof.
  unfold emit_post_migrate_signal. intros Hall.
  induction Hall as [| app_config app_configs Hlabel _ IH]; simpl; [reflexivity |].
  erewrite bind_ok; [exact IH |].
  apply post_migrate_send_other_label. apply String.eqb_neq, Hlabel.
Qed.

(** X3. A call of the handler that raises, be it the assertion, a file
    that cannot be opened, a deserialization or save error or a failing
    SQL statement, leaves the receivers of [post_migrate] as they were: a
    handler whose load did not come to its end is still connected. *)
Theorem failed_load_stays_connected
    (fixture_path : string) (fixtures : list string) (self : nat)
    (app_config sender : AppConfig) (w w' : World) (e : Exc) :
  signal_handler fixture_path fixtures self app_config sender w = (Raise e, w') ->
  w_receivers w' = w_receivers w.
Proof.
  intros Hrun.
  pose proof (signal_handler_run fixture_path fixtures self app_config sender w) as Hspec.
  cbv zeta in Hspec. rewrite Hrun in Hspec. simpl in Hspec.
  destruct (String.eqb (label sender) "django_migration_fixture");
    [| discriminate Hspec].
  destruct (String.eqb (label app_config) "django_migration_fixture").
  - destruct Hspec as (l & _ & _ & [[Hok _] | [_ Hrcv]]);
      [discriminate Hok | exact Hrcv].
  - injection Hspec as _ <-. reflexivity.
Qed.

Lemma models_of_empty (objs : list DeserializedObject) :
  models_of objs = ∅ <-> objs = [].
Proof.
  split; [| intros ->; reflexivity].
  destruct objs as [| obj objs]; [reflexivity |].
  unfold models_of. simpl. intros Hempty. exfalso.
  assert (inst_model (object obj) ∈ (∅ : gset Model)) as Hin
    by (rewrite <- Hempty; apply elem_of_union_l, elem_of_singleton; reflexivity).
  exact (not_elem_of_empty _ Hin).
Qed.

Lemma open_or_save_not_cursor l :
  forallb is_open_or_save l = true -> forallb (fun e => negb (is_cursor e)) l = true.
Proof.
  induction l as [| e l IH]; simpl; [reflexivity |].
  intros Hl. apply andb_prop in Hl. destruct Hl as [He Hl].
  rewrite (IH Hl). destruct e; simpl in *; auto; discriminate.
Qed.

(** X4. A load pass that comes to its end has opened a database cursor if
    and only if it saved at least one object: the log it adds has no
    cursor entry exactly when it has no save entry. *)
Theorem load_opens_cursor_iff_saved
    (fixture_path : string) (fixtures : list string) (self : nat)
    (app_config sender : AppConfig) (w w' : World) :
  label sender = "django_migration_fixture" ->
  signal_handler fixture_path fixtures self app_config sender w = (Ok tt, w') ->
  exists l,
    w_log w' = w_log w ++ l /\
    (saves l = [] <-> forallb (fun e => negb (is_cursor e)) l = true).
Proof.
  intros Hsender Hrun. unfold signal_handler in Hrun.
  rewrite Hsender, String.eqb_refl in Hrun.
  destruct (String.eqb (label app_config) "django_migration_fixture");
    [| discriminate Hrun].
  erewrite bind_ok in Hrun by reflexivity.
  erewrite bind_ok in Hrun by apply log_run.
  destruct (collects_load_loop fixture_path fixtures ∅ (logged [EvLoad self] w))
    as (l1 & Hl1 & Hp1 & _ & Hacc).
  destruct (get_objects fixture_path fixtures _ ∅ (logged [EvLoad self] w))
    as [[models | e] w1] eqn:Hloop;
    [erewrite bind_ok in Hrun by exact Hloop
    | erewrite bind_raise in Hrun by exact Hloop; discriminate Hrun].
  simpl in Hl1. specialize (Hacc models eq_refl).
  rewrite (left_id_L ∅ (∪)) in Hacc. subst models.
  destruct (reset_db_sequences_tail (models_of (saves l1)) w1)
    as (l2 & Hl2 & Hp2 & Hnone & Hsome).
  destruct (reset_db_sequences (models_of (saves l1)) w1) as [[[] | e] w2] eqn:Hreset;
    [erewrite bind_ok in Hrun by exact Hreset
    | erewrite bind_raise in Hrun by exact Hreset; discriminate Hrun].
  simpl in Hl2. unfold post_migrate_disconnect in Hrun. injection Hrun as <-. simpl.
  exists (EvLoad self :: l1 ++ EvResetDbSequences (models_of (saves l1)) :: l2).
  split; [rewrite Hl2, Hl1, <- !app_assoc; reflexivity |].
  simpl. rewrite saves_app, forallb_app. simpl.
  destruct (cursor_no_save_no_reset l2 Hp2) as [-> _]. rewrite app_nil_r.
  rewrite (open_or_save_not_cursor l1 Hp1). simpl.
  split.
  - intros Hnil. rewrite Hnone; [reflexivity |]. apply models_of_empty, Hnil.
  - intros Hnc. destruct (saves l1) as [| obj objs] eqn:Hsaves; [reflexivity |].
    exfalso. destruct Hsome as (l' & ->).
    + intros Hempty. apply models_of_empty in Hempty. discriminate Hempty.
    + simpl in Hnc. discriminate Hnc.
Qed.

End Signal.

Lemma emit_without_package_application_witness :
  let app_configs := [ Demo.myapp_config; {| label := "auth"; name := "django.contrib.auth" |} ] in
  let w := (load_fixture "/srv/myapp/fixtures" ["eggs.yaml"]
              Demo.myapp_config tt Demo.world0).2 in
  Forall (fun app_config => label app_config <> "django_migration_fixture") app_configs /\
  emit_post_migrate_signal app_configs w = (Ok tt, w).
Proof.
  intros app_configs w.
  assert (Forall (fun app_config => label app_config <> "django_migration_fixture")
            app_configs) as Hall
    by (repeat constructor; discriminate).
  split; [exact Hall |].
  exact (emit_without_package_application app_configs w Hall).
Defined.

Lemma failed_load_stays_connected_witness :
  let w := (load_fixture "/srv/myapp/fixtures" ["eggs.yaml"; "missing.yaml"]
              Demo.myapp_config tt Demo.world0).2 in
  let run := signal_handler "/srv/myapp/fixtures" ["eggs.yaml"; "missing.yaml"] 0
               Demo.dmf_config Demo.dmf_config w in
  run = (Raise (IOError "/srv/myapp/fixtures/missing.yaml"), run.2) /\
  w_receivers run.2 = w_receivers w.
Proof.
  intros w run.
  assert (run = (Raise (IOError "/srv/myapp/fixtures/missing.yaml"), run.2)) as Hrun
    by (vm_compute; reflexivity).
  split; [exact Hrun |].
  exact (failed_load_stays_connected "/srv/myapp/fixtures" ["eggs.yaml"; "missing.yaml"] 0
           Demo.dmf_config Demo.dmf_config w run.2 _ Hrun).
Defined.

Lemma load_opens_cursor_iff_saved_witness :
  let run := signal_handler "/srv/myapp/fixtures" ["eggs.yaml"] 0
               Demo.dmf_config Demo.dmf_config Demo.world0 in
  label Demo.dmf_config = "django_migration_fixture" /\
  run = (Ok tt, run.2) /\
  exists l,
    w_log run.2 = w_log Demo.world0 ++ l /\
    (saves l = [] <-> forallb (fun e => negb (is_cursor e)) l = true).
Proof.
  intros run.
  assert (run = (Ok tt, run.2)) as Hrun by (vm_compute; reflexivity).
  split; [reflexivity |]. split; [exact Hrun |].
  exact (load_opens_cursor_iff_saved "/srv/myapp/fixtures" ["eggs.yaml"] 0
           Demo.dmf_config Demo.dmf_config Demo.world0 run.2 eq_refl Hrun).
Defined.

Section UnloadMore.
Context `{Framework}.

(** X5. Only the [DoesNotExist] of the model looked up is caught: any
    other exception of the lookup ([MultipleObjectsReturned], a database
    error, the [DoesNotExist] of another model) leaves the unload of the
    object as it is, whatever [raise_does_not_exist] says, and nothing is
    deleted. *)
Theorem unload_object_other_exception
    (app : App) (raise_does_not_exist : bool) (apps : Apps)
    (obj : DeserializedObject) (model : Model) (e : Exc) (w : World) :
  get_model apps (app_name app) (inst_class_name (object obj)) = Some model ->
  objects_get model (unload_kwargs (inst_dict (object obj))) (w_db w) = Raise e ->
  e <> DoesNotExist model ->
  unload_object app raise_does_not_exist apps obj w
  = (Raise e, logged [EvGet model (unload_kwargs (inst_dict (object obj)))] w).
Proof.
  intros Hmodel Hget Hother. unfold unload_object. rewrite Hmodel.
  erewrite bind_ok by reflexivity.
  unfold try_except, get_and_delete.
  erewrite bind_ok by apply log_run.
  erewrite bind_raise by (simpl; rewrite Hget; reflexivity).
  destruct e; try reflexivity.
  destruct (String.eqb model0 model) eqn:Heq; [| reflexivity].
  apply String.eqb_eq in Heq. subst model0. contradiction.
Qed.

Lemma unload_object_flag (app : App) (apps : Apps) (obj : DeserializedObject)
    (w w' : World) :
  unload_object app false apps obj w = (Ok tt, w') ->
  unload_object app true apps obj w = (Ok tt, w').
Proof.
  unfold unload_object.
  destruct (get_model apps (app_name app) (inst_class_name (object obj))) as [model |];
    [| intros Hrun; exact Hrun].
  erewrite !bind_ok by reflexivity.
  unfold try_except.
  destruct (get_and_delete model _ w) as [[[] | e] w1]; [auto |].
  destruct e; auto.
  destruct (String.eqb model0 model); [| auto].
  simpl. intros Hrun. discriminate Hrun.
Qed.

Lemma for_each_agree {A B} (body1 body2 : B -> A -> M A) (l : list B) :
  (forall x acc w a w', body1 x acc w = (Ok a, w') -> body2 x acc w = (Ok a, w')) ->
  forall acc w a w',
    for_each body1 l acc w = (Ok a, w') -> for_each body2 l acc w = (Ok a, w').
Proof.
  intros Hbody. induction l as [| x l IH]; intros acc w a w'; simpl; [auto |].
  destruct (body1 x acc w) as [[a1 | e] w1] eqn:Hrun.
  - erewrite bind_ok by exact Hrun.
    erewrite bind_ok by (apply Hbody; exact Hrun). apply IH.
  - erewrite bind_raise by exact Hrun. intros Hraise. discriminate Hraise.
Qed.

(** X6. [raise_does_not_exist] only matters when a row is missing: an
    unload that comes to its end with the flag [False] (the value with
    which the code raises on a missing row) comes to the same end, with
    the same database and the same log, with the flag [True]. *)
Theorem unload_fixture_flag_irrelevant
    (app : App) (fixture_path : string) (fixtures : list string)
    (apps : Apps) (schema_editor : SchemaEditor) (w w' : World) :
  unload_fixture app fixture_path fixtures false apps schema_editor w = (Ok tt, w') ->
  unload_fixture app fixture_path fixtures true apps schema_editor w = (Ok tt, w').
Proof.
  unfold unload_fixture, get_objects. apply for_each_agree.
  intros fixture acc w0 a w0'. unfold bind.
  destruct (open_rb (os_path.join fixture_path fixture) w0) as [[f | e] w1]; [| auto].
  destruct (for_each (fun obj _ => unload_object app false apps obj)
              (fst (deserialize (get_format fixture) f)) acc w1)
    as [[a1 | e] w2] eqn:Hloop; [| intros Hraise; discriminate Hraise].
  rewrite (for_each_agree
             (fun obj _ => unload_object app false apps obj)
             (fun obj _ => unload_object app true apps obj) _
             (fun obj u w3 u' w3' =>
                match u, u' with tt, tt => unload_object_flag app apps obj w3 w3' end)
             _ _ _ _ Hloop).
  auto.
Qed.

Lemma for_each_app {A B} (body : B -> A -> M A) (l1 l2 : list B) (acc : A) (w : World) :
  for_each body (l1 ++ l2) acc w
  = bind (for_each body l1 acc) (for_each body l2) w.
Proof.
  revert acc w. induction l1 as [| x l1 IH]; intros acc w; simpl; [reflexivity |].
  destruct (body x acc w) as [[acc1 | e] w1] eqn:Hrun.
  - specialize (IH acc1 w1). unfold bind in *. rewrite Hrun. exact IH.
  - unfold bind. rewrite Hrun. reflexivity.
Qed.

(** X7. Unloading the fixtures [l1 ++ l2] is unloading [l1] and then,
    unless that raised, unloading [l2]: one reverse callable for a list
    of files does what the reverse callables of its parts do one after
    the other, and a failure in the first part keeps the second part from
    being opened at all. *)
Theorem unload_fixture_app
    (app : App) (fixture_path : string) (l1 l2 : list string)
    (raise_does_not_exist : bool) (apps : Apps) (schema_editor : SchemaEditor)
    (w : World) :
  unload_fixture app fixture_path (l1 ++ l2) raise_does_not_exist apps schema_editor w
  = bind (unload_fixture app fixture_path l1 raise_does_not_exist apps schema_editor)
      (fun _ => unload_fixture app fixture_path l2 raise_does_not_exist apps schema_editor)
      w.
Proof.
  unfold unload_fixture, get_objects. rewrite for_each_app.
  unfold bind. destruct (for_each _ l1 tt w) as [[[] | e] w1]; reflexivity.
Qed.

(** X8. The keyword arguments of the lookup are always part of the
    [__dict__] of the object: every key of the lookup is an attribute
    of the object and carries the value the object has for it, so a row
    that agrees with the object on all attributes is matched. *)
Theorem unload_kwargs_subseteq (d : Dict) : unload_kwargs d ⊆ d.
Proof.
  rewrite unload_kwargs_spec. unfold spec_lookup_key.
  destruct (d !! "id") as [v |] eqn:Hid.
  - apply map_singleton_subseteq_l, Hid.
  - destruct (d !! "slug") as [v |] eqn:Hslug.
    + apply map_singleton_subseteq_l, Hslug.
    + reflexivity.
Qed.

End UnloadMore.

Lemma unload_object_other_exception_witness :
  let w := @Build_World Demo.demo_framework
             [Demo.row_of Demo.egg1; Demo.row_of Demo.egg1] Demo.files [] 0 [] in
  get_model Demo.history (app_name Demo.myapp) (inst_class_name (object Demo.egg1))
  = Some "myapp.Egg" /\
  objects_get (Framework := Demo.demo_framework) "myapp.Egg"
    (unload_kwargs (inst_dict (object Demo.egg1))) (w_db w)
  = Raise (MultipleObjectsReturned "myapp.Egg") /\
  MultipleObjectsReturned "myapp.Egg" <> DoesNotExist "myapp.Egg" /\
  unload_object Demo.myapp true Demo.history Demo.egg1 w
  = (Raise (MultipleObjectsReturned "myapp.Egg"),
     logged [EvGet "myapp.Egg" (unload_kwargs (inst_dict (object Demo.egg1)))] w).
Proof.
  intros w.
  assert (objects_get (Framework := Demo.demo_framework) "myapp.Egg"
            (unload_kwargs (inst_dict (object Demo.egg1))) (w_db w)
          = Raise (MultipleObjectsReturned "myapp.Egg")) as Hget
    by (vm_compute; reflexivity).
  assert (MultipleObjectsReturned "myapp.Egg" <> DoesNotExist "myapp.Egg") as Hother
    by discriminate.
  split; [reflexivity |]. split; [exact Hget |]. split; [exact Hother |].
  exact (unload_object_other_exception Demo.myapp true Demo.history Demo.egg1
           "myapp.Egg" _ w eq_refl Hget Hother).
Defined.

Lemma unload_fixture_flag_irrelevant_witness :
  let w := @Build_World Demo.demo_framework
             [Demo.row_of Demo.egg1; Demo.row_of Demo.egg2] Demo.files [] 0 [] in
  let run := unload_fixture Demo.myapp "/srv/myapp/fixtures" ["eggs.yaml"] false
               Demo.history tt w in
  run = (Ok tt, run.2) /\
  unload_fixture Demo.myapp "/srv/myapp/fixtures" ["eggs.yaml"] true Demo.history tt w
  = (Ok tt, run.2).
Proof.
  intros w run.
  assert (run = (Ok tt, run.2)) as Hrun by (vm_compute; reflexivity).
  split; [exact Hrun |].
  exact (unload_fixture_flag_irrelevant Demo.myapp "/srv/myapp/fixtures" ["eggs.yaml"]
           Demo.history tt w run.2 Hrun).
Defined.

Example demo_unload_deletes :
  let w := @Build_World Demo.demo_framework
             [Demo.row_of Demo.egg1; Demo.row_of Demo.egg2] Demo.files [] 0 [] in
  w_db (unload_fixture Demo.myapp "/srv/myapp/fixtures" ["eggs.yaml"] false
          Demo.history tt w).2 = [].
Proof. vm_compute. reflexivity. Qed.

Section StreamMore.
Context `{Framework}.

Lemma stream_of_fs (w1 w2 : World) fixture_path fixtures :
  w_fs w1 = w_fs w2 -> stream_of w1 fixture_path fixtures = stream_of w2 fixture_path fixtures.
Proof.
  intros Hfs. unfold stream_of, file_objects. rewrite Hfs. reflexivity.
Qed.

Lemma collect_files_missing fixture_path (l1 : list string) (fixture : string)
    (l2 : list string) (acc : list DeserializedObject) (w : World) :
  Forall (readable w fixture_path) l1 ->
  w_fs w !! os_path.join fixture_path fixture = None ->
  get_objects fixture_path (l1 ++ fixture :: l2) (fun obj acc => ret (acc ++ [obj])) acc w
  = (Raise (IOError (os_path.join fixture_path fixture)),
     logged (open_events fixture_path (l1 ++ [fixture])) w).
Proof.
  intros Hall Hmissing. unfold get_objects. rewrite for_each_app.
  pose proof (collect_files fixture_path l1 acc w Hall) as Hfirst.
  unfold get_objects in Hfirst. erewrite bind_ok by exact Hfirst.
  simpl. erewrite bind_raise.
  2: { erewrite bind_raise by (apply open_rb_missing; exact Hmissing). reflexivity. }
  rewrite logged_logged. unfold open_events. rewrite map_app. reflexivity.
Qed.

(** X9. The stream stops at the first fixture file that cannot be
    opened: with the files before it readable, iterating [get_objects()]
    raises the [IOError] of that file after having opened the files up to
    and including it, in the order of the list; the files after it are
    not opened, and the database is not touched. *)
Theorem get_objects_stops_at_missing_file
    (fixture_path : string) (l1 : list string) (fixture : string) (l2 : list string)
    (w : World) :
  Forall (readable w fixture_path) l1 ->
  w_fs w !! os_path.join fixture_path fixture = None ->
  let run := list_get_objects fixture_path (l1 ++ fixture :: l2) w in
  run.1 = Raise (IOError (os_path.join fixture_path fixture)) /\
  w_log run.2 = w_log w ++ open_events fixture_path (l1 ++ [fixture]) /\
  w_db run.2 = w_db w.
Proof.
  intros Hall Hmissing run. subst run. unfold list_get_objects.
  rewrite (collect_files_missing fixture_path l1 fixture l2 [] w Hall Hmissing).
  repeat split.
Qed.

End StreamMore.

Lemma get_objects_stops_at_missing_file_witness :
  Forall (readable Demo.world0 "/srv/myapp/fixtures") ["eggs.yaml"] /\
  w_fs Demo.world0 !! os_path.join "/srv/myapp/fixtures" "missing.yaml" = None /\
  let run := list_get_objects "/srv/myapp/fixtures"
               (["eggs.yaml"] ++ "missing.yaml" :: ["sausage.json"]) Demo.world0 in
  run.1 = Raise (IOError (os_path.join "/srv/myapp/fixtures" "missing.yaml")) /\
  w_log run.2
  = w_log Demo.world0 ++ open_events "/srv/myapp/fixtures" (["eggs.yaml"] ++ ["missing.yaml"]) /\
  w_db run.2 = w_db Demo.world0.
Proof.
  assert (Forall (readable Demo.world0 "/srv/myapp/fixtures") ["eggs.yaml"]) as Hall.
  { repeat constructor. exists "eggs". split; reflexivity. }
  assert (w_fs Demo.world0 !! os_path.join "/srv/myapp/fixtures" "missing.yaml" = None)
    as Hmissing by (vm_compute; reflexivity).
  split; [exact Hall |]. split; [exact Hmissing |].
  exact (get_objects_stops_at_missing_file "/srv/myapp/fixtures" ["eggs.yaml"]
           "missing.yaml" ["sausage.json"] Demo.world0 Hall Hmissing).
Defined.
